(** * image-converter: the data model of [app/models.py]

    A shallow embedding of the SQLModel classes of the image conversion
    service: the two enumerations, the four persistent tables with their
    column declarations, the request and response schemas with their field
    constraints, and the [dict] overrides of the three response schemas.
    The lifecycle engine that the specification describes over these classes
    (submit, claim, succeed, fail, cancel and the racing workers) has no code
    in the file; it is written from the specification in the modules
    [Engine] and [Workers], and every definition there says so.

    Python data is modelled as follows.
    - [int] is [Z]; [Optional[t]] is [option t];
    - [str] is the [string] of its UTF-8 bytes, and [len] counts its
      characters (code points), not its bytes;
    - a [str]-valued [Enum] is an inductive type with its value function and
      the lookup by value that [Enum.__call__] performs;
    - [Field(...)] is a record of the keyword arguments the file uses;
    - the dictionary returned by [dict()] is a [gmap string value];
    - a table is the list of its rows, and the column declarations
      (primary key, foreign key, unique, nullable) are constraints on it. *)

From Stdlib Require Import ZArith List Ascii String Lia Bool.
From stdpp Require Import base option list gmap strings.

Local Open Scope Z_scope.
Local Open Scope string_scope.

(** ** Errors raised by the modelled code *)

Inductive error :=
  | ValidationError (fields : list string)
  | AttributeError (attr : string)
  | Conflict
  | NotFound.

Inductive result (A : Type) :=
  | Ok (a : A)
  | Err (e : error).
Arguments Ok {A} a.
Arguments Err {A} e.

#[global] Instance result_ret : MRet result := fun A a => Ok a.

#[global] Instance result_bind : MBind result := fun A B k r =>
  match r with
  | Ok a => k a
  | Err e => Err e
  end.

(** ** Enumerations (models.py, lines 8-26) *)

(** [class ImageFormat(str, Enum)] *)
Inductive ImageFormat := JPEG | JPG | PNG | WEBP | BMP | TIFF | GIF.

(** [class ConversionStatus(str, Enum)] *)
Inductive ConversionStatus := PENDING | PROCESSING | COMPLETED | FAILED.

#[global] Instance ImageFormat_eq_dec : EqDecision ImageFormat.
Proof. solve_decision. Defined.

#[global] Instance ConversionStatus_eq_dec : EqDecision ConversionStatus.
Proof. solve_decision. Defined.

(** The value attached to each member. *)
Definition ImageFormat_value (f : ImageFormat) : string :=
  match f with
  | JPEG => "jpeg"
  | JPG => "jpg"
  | PNG => "png"
  | WEBP => "webp"
  | BMP => "bmp"
  | TIFF => "tiff"
  | GIF => "gif"
  end.

Definition ConversionStatus_value (s : ConversionStatus) : string :=
  match s with
  | PENDING => "pending"
  | PROCESSING => "processing"
  | COMPLETED => "completed"
  | FAILED => "failed"
  end.

(** The members in definition order ([list(ImageFormat)]). *)
Definition ImageFormat_members : list ImageFormat :=
  [JPEG; JPG; PNG; WEBP; BMP; TIFF; GIF].

Definition ConversionStatus_members : list ConversionStatus :=
  [PENDING; PROCESSING; COMPLETED; FAILED].

(** [Enum.__call__(value)]: the first member carrying that value, and
    [ValueError] (here [None]) when there is none.  This is also how a
    field annotated with the enumeration accepts a raw string. *)
Definition enum_lookup {A} (value : A -> string) (members : list A)
    (s : string) : option A :=
  List.find (fun m => String.eqb (value m) s) members.

Definition ImageFormat_of_value : string -> option ImageFormat :=
  enum_lookup ImageFormat_value ImageFormat_members.

Definition ConversionStatus_of_value : string -> option ConversionStatus :=
  enum_lookup ConversionStatus_value ConversionStatus_members.

(** ** Library values: [datetime] and [Decimal] *)

Module Datetime.

(** A [datetime.datetime]: the civil fields and, for an aware value, the
    UTC offset in microseconds (strictly between -24h and 24h). *)
Record t := mk {
  year : Z;
  month : Z;
  day : Z;
  hour : Z;
  minute : Z;
  second : Z;
  microsecond : Z;
  utcoffset : option Z
}.

Definition digit (n : Z) : ascii :=
  ascii_of_nat (48 + Z.to_nat (n mod 10)).

(** ["%0wd" % n] for [0 <= n < 10^w]. *)
Fixpoint fixed_dec (w : nat) (n : Z) : string :=
  match w with
  | O => ""
  | S w' => fixed_dec w' (n / 10) ++ String (digit n) ""
  end.

Definition format_offset (off : option Z) : string :=
  match off with
  | None => ""
  | Some o =>
      let sign := if (o <? 0)%Z then "-" else "+" in
      let a := Z.abs o in
      let hh := a / 3600000000 in
      let r := a mod 3600000000 in
      let mm := r / 60000000 in
      let ss := r mod 60000000 in
      sign ++ fixed_dec 2 hh ++ ":" ++ fixed_dec 2 mm ++
      (if (ss =? 0)%Z then ""
       else ":" ++ fixed_dec 2 (ss / 1000000) ++
            (if (ss mod 1000000 =? 0)%Z then ""
             else "." ++ fixed_dec 6 (ss mod 1000000)))
  end.

(** [datetime.isoformat()] with the default separator and time spec. *)
Definition isoformat (d : t) : string :=
  fixed_dec 4 (year d) ++ "-" ++ fixed_dec 2 (month d) ++ "-" ++
  fixed_dec 2 (day d) ++ "T" ++ fixed_dec 2 (hour d) ++ ":" ++
  fixed_dec 2 (minute d) ++ ":" ++ fixed_dec 2 (second d) ++
  (if (microsecond d =? 0)%Z then "" else "." ++ fixed_dec 6 (microsecond d)) ++
  format_offset (utcoffset d).

#[global] Instance eq_dec : EqDecision t.
Proof. solve_decision. Defined.

End Datetime.

Abbreviation datetime := Datetime.t.

Module Decimal.

(** A finite [decimal.Decimal]: [(-1)^sign * coefficient * 10^exponent]. *)
Record t := mk {
  sign : bool;
  coefficient : N;
  exponent : Z
}.

(** [bool(d)] is false exactly for a zero. *)
Definition is_nonzero (d : t) : bool := negb (N.eqb (coefficient d) 0%N).

#[global] Instance eq_dec : EqDecision t.
Proof. solve_decision. Defined.

End Decimal.

Abbreviation Decimal := Decimal.t.


(** ** Field declarations

    [Field(...)] with the keyword arguments that occur in the file; a keyword
    that is not passed has its library default ([False] or [None]).  The
    [default] and [default_factory] arguments are modelled in the
    constructors of the classes below. *)

Record FieldInfo := {
  primary_key : bool;
  foreign_key : option string;
  unique : bool;
  ge : option Z;
  le : option Z;
  max_length : option nat
}.

(** [Field()] with no constraint. *)
Definition Field : FieldInfo :=
  {| primary_key := false; foreign_key := None; unique := false;
     ge := None; le := None; max_length := None |}.

Definition set_primary_key (f : FieldInfo) : FieldInfo :=
  {| primary_key := true; foreign_key := foreign_key f; unique := unique f;
     ge := ge f; le := le f; max_length := max_length f |}.

Definition set_foreign_key (k : string) (f : FieldInfo) : FieldInfo :=
  {| primary_key := primary_key f; foreign_key := Some k; unique := unique f;
     ge := ge f; le := le f; max_length := max_length f |}.

Definition set_unique (f : FieldInfo) : FieldInfo :=
  {| primary_key := primary_key f; foreign_key := foreign_key f; unique := true;
     ge := ge f; le := le f; max_length := max_length f |}.

Definition set_ge (n : Z) (f : FieldInfo) : FieldInfo :=
  {| primary_key := primary_key f; foreign_key := foreign_key f;
     unique := unique f; ge := Some n; le := le f; max_length := max_length f |}.

Definition set_le (n : Z) (f : FieldInfo) : FieldInfo :=
  {| primary_key := primary_key f; foreign_key := foreign_key f;
     unique := unique f; ge := ge f; le := Some n; max_length := max_length f |}.

Definition set_max_length (n : nat) (f : FieldInfo) : FieldInfo :=
  {| primary_key := primary_key f; foreign_key := foreign_key f;
     unique := unique f; ge := ge f; le := le f; max_length := Some n |}.

(** An annotated class attribute: its name, whether the annotation is
    [Optional[...]], and its [Field]. *)
Record ModelField := {
  field_name : string;
  optional : bool;
  info : FieldInfo
}.

(** The column a table class declares for an attribute: a primary key is
    never nullable, any other column is nullable exactly when its annotation
    is [Optional]. *)
Record Column := {
  col_name : string;
  col_primary_key : bool;
  col_nullable : bool;
  col_unique : bool;
  col_foreign_key : option string
}.

Definition column_of (f : ModelField) : Column :=
  {| col_name := field_name f;
     col_primary_key := primary_key (info f);
     col_nullable := negb (primary_key (info f)) && optional f;
     col_unique := unique (info f);
     col_foreign_key := foreign_key (info f) |}.

(** *** Checking a value against the constraints of its field *)

Definition check_bound (b : option Z) (holds : Z -> Z -> bool) (v : Z) : bool :=
  match b with
  | None => true
  | Some n => holds n v
  end.

Definition int_ok (f : FieldInfo) (v : Z) : bool :=
  check_bound (ge f) Z.leb v && check_bound (le f) Z.geb v.

Definition opt_int_ok (f : FieldInfo) (v : option Z) : bool :=
  match v with
  | None => true
  | Some z => int_ok f z
  end.

(** A byte [10xxxxxx], which continues a character of more than one byte. *)
Definition is_continuation (c : ascii) : bool :=
  match c with
  | Ascii _ _ _ _ _ _ b6 b7 => b7 && negb b6
  end.

(** [len(s)]: the number of characters of the text, one for every byte of
    its encoding that starts a character. *)
Fixpoint str_len (s : string) : nat :=
  match s with
  | EmptyString => O
  | String c rest => ((if is_continuation c then 0 else 1) + str_len rest)%nat
  end.

(** [max_length] bounds the number of characters. *)
Definition str_ok (f : FieldInfo) (s : string) : bool :=
  match max_length f with
  | None => true
  | Some n => Nat.leb (str_len s) n
  end.

Definition opt_str_ok (f : FieldInfo) (s : option string) : bool :=
  match s with
  | None => true
  | Some x => str_ok f x
  end.

(** The names of the fields whose check failed, in declaration order. *)
Definition failures (checks : list (string * bool)) : list string :=
  map fst (List.filter (fun c => negb (snd c)) checks).

(** ** Persistent models (models.py, lines 30-118) *)

Module User.

Record t := mk {
  id : option Z;
  email : string;
  name : string;
  is_active : bool;
  created_at : datetime;
  updated_at : datetime
}.

Definition f_id : ModelField :=
  {| field_name := "id"; optional := true; info := set_primary_key Field |}.
Definition f_email : ModelField :=
  {| field_name := "email"; optional := false;
     info := set_max_length 255 (set_unique Field) |}.
Definition f_name : ModelField :=
  {| field_name := "name"; optional := false;
     info := set_max_length 100 Field |}.

Definition f_is_active : ModelField :=
  {| field_name := "is_active"; optional := false; info := Field |}.
Definition f_created_at : ModelField :=
  {| field_name := "created_at"; optional := false; info := Field |}.
Definition f_updated_at : ModelField :=
  {| field_name := "updated_at"; optional := false; info := Field |}.

(** The attributes that are columns of the table, in declaration order. *)
Definition columns : list ModelField :=
  [f_id; f_email; f_name; f_is_active; f_created_at; f_updated_at].

(** The declared constraints on the attributes of a user. *)
Definition checks (u : t) : list (string * bool) :=
  [ ("email", str_ok (info f_email) (email u));
    ("name", str_ok (info f_name) (name u)) ].

Definition tablename := "users".

End User.

Module UploadedImage.

Record t := mk {
  id : option Z;
  user_id : option Z;
  original_filename : string;
  stored_filename : string;
  file_path : string;
  file_size : Z;
  mime_type : string;
  original_format : ImageFormat;
  width : option Z;
  height : option Z;
  upload_date : datetime;
  is_deleted : bool
}.

Definition f_id : ModelField :=
  {| field_name := "id"; optional := true; info := set_primary_key Field |}.
Definition f_user_id : ModelField :=
  {| field_name := "user_id"; optional := true;
     info := set_foreign_key "users.id" Field |}.
Definition f_original_filename : ModelField :=
  {| field_name := "original_filename"; optional := false;
     info := set_max_length 255 Field |}.
Definition f_stored_filename : ModelField :=
  {| field_name := "stored_filename"; optional := false;
     info := set_max_length 255 Field |}.
Definition f_file_path : ModelField :=
  {| field_name := "file_path"; optional := false;
     info := set_max_length 500 Field |}.
Definition f_file_size : ModelField :=
  {| field_name := "file_size"; optional := false; info := set_ge 0 Field |}.
Definition f_mime_type : ModelField :=
  {| field_name := "mime_type"; optional := false;
     info := set_max_length 100 Field |}.
Definition f_width : ModelField :=
  {| field_name := "width"; optional := true; info := set_ge 0 Field |}.
Definition f_height : ModelField :=
  {| field_name := "height"; optional := true; info := set_ge 0 Field |}.

Definition f_original_format : ModelField :=
  {| field_name := "original_format"; optional := false; info := Field |}.
Definition f_upload_date : ModelField :=
  {| field_name := "upload_date"; optional := false; info := Field |}.
Definition f_is_deleted : ModelField :=
  {| field_name := "is_deleted"; optional := false; info := Field |}.

(** The attributes that are columns of the table, in declaration order. *)
Definition columns : list ModelField :=
  [f_id; f_user_id; f_original_filename; f_stored_filename; f_file_path;
   f_file_size; f_mime_type; f_original_format; f_width; f_height;
   f_upload_date; f_is_deleted].

(** The declared constraints on the attributes of an uploaded image. *)
Definition checks (i : t) : list (string * bool) :=
  [ ("original_filename", str_ok (info f_original_filename) (original_filename i));
    ("stored_filename", str_ok (info f_stored_filename) (stored_filename i));
    ("file_path", str_ok (info f_file_path) (file_path i));
    ("file_size", int_ok (info f_file_size) (file_size i));
    ("mime_type", str_ok (info f_mime_type) (mime_type i));
    ("width", opt_int_ok (info f_width) (width i));
    ("height", opt_int_ok (info f_height) (height i)) ].

Definition tablename := "uploaded_images".

End UploadedImage.

Module ConversionJob.

Record t := mk {
  id : option Z;
  user_id : option Z;
  source_image_id : Z;
  target_format : ImageFormat;
  status : ConversionStatus;
  quality : option Z;
  width : option Z;
  height : option Z;
  maintain_aspect_ratio : bool;
  created_at : datetime;
  started_at : option datetime;
  completed_at : option datetime;
  error_message : option string;
  processing_time_seconds : option Decimal
}.

Definition f_id : ModelField :=
  {| field_name := "id"; optional := true; info := set_primary_key Field |}.
Definition f_user_id : ModelField :=
  {| field_name := "user_id"; optional := true;
     info := set_foreign_key "users.id" Field |}.
Definition f_source_image_id : ModelField :=
  {| field_name := "source_image_id"; optional := false;
     info := set_foreign_key "uploaded_images.id" Field |}.
Definition f_quality : ModelField :=
  {| field_name := "quality"; optional := true;
     info := set_le 100 (set_ge 1 Field) |}.
Definition f_width : ModelField :=
  {| field_name := "width"; optional := true; info := set_ge 1 Field |}.
Definition f_height : ModelField :=
  {| field_name := "height"; optional := true; info := set_ge 1 Field |}.
Definition f_error_message : ModelField :=
  {| field_name := "error_message"; optional := true;
     info := set_max_length 1000 Field |}.

Definition f_target_format : ModelField :=
  {| field_name := "target_format"; optional := false; info := Field |}.
Definition f_status : ModelField :=
  {| field_name := "status"; optional := false; info := Field |}.
Definition f_maintain_aspect_ratio : ModelField :=
  {| field_name := "maintain_aspect_ratio"; optional := false; info := Field |}.
Definition f_created_at : ModelField :=
  {| field_name := "created_at"; optional := false; info := Field |}.
Definition f_started_at : ModelField :=
  {| field_name := "started_at"; optional := true; info := Field |}.
Definition f_completed_at : ModelField :=
  {| field_name := "completed_at"; optional := true; info := Field |}.
Definition f_processing_time_seconds : ModelField :=
  {| field_name := "processing_time_seconds"; optional := true; info := Field |}.

(** The attributes that are columns of the table, in declaration order. *)
Definition columns : list ModelField :=
  [f_id; f_user_id; f_source_image_id; f_target_format; f_status; f_quality;
   f_width; f_height; f_maintain_aspect_ratio; f_created_at; f_started_at;
   f_completed_at; f_error_message; f_processing_time_seconds].

Definition tablename := "conversion_jobs".

(** The declared constraints on the attributes of a job. *)
Definition checks (j : t) : list (string * bool) :=
  [ ("quality", opt_int_ok (info f_quality) (quality j));
    ("width", opt_int_ok (info f_width) (width j));
    ("height", opt_int_ok (info f_height) (height j));
    ("error_message", opt_str_ok (info f_error_message) (error_message j)) ].

(** [ConversionJob(...)]: the keyword arguments that have a default other
    than [None] are optional here, [None] meaning "not passed";
    [utcnow] is the value [datetime.utcnow()] returns at the call. *)
Definition init (utcnow : datetime)
    (id user_id : option Z) (source_image_id : Z)
    (target_format : ImageFormat) (status : option ConversionStatus)
    (quality width height : option Z) (maintain_aspect_ratio : option bool)
    (created_at : option datetime) (started_at completed_at : option datetime)
    (error_message : option string)
    (processing_time_seconds : option Decimal) : t :=
  {| id := id;
     user_id := user_id;
     source_image_id := source_image_id;
     target_format := target_format;
     status := default PENDING status;
     quality := quality;
     width := width;
     height := height;
     maintain_aspect_ratio := default true maintain_aspect_ratio;
     created_at := default utcnow created_at;
     started_at := started_at;
     completed_at := completed_at;
     error_message := error_message;
     processing_time_seconds := processing_time_seconds |}.

End ConversionJob.

Module ConvertedImage.

Record t := mk {
  id : option Z;
  conversion_job_id : Z;
  filename : string;
  file_path : string;
  file_size : Z;
  mime_type : string;
  format : ImageFormat;
  width : Z;
  height : Z;
  quality_used : option Z;
  created_at : datetime;
  download_count : Z;
  last_downloaded_at : option datetime;
  expires_at : option datetime;
  is_deleted : bool
}.

Definition f_id : ModelField :=
  {| field_name := "id"; optional := true; info := set_primary_key Field |}.
Definition f_conversion_job_id : ModelField :=
  {| field_name := "conversion_job_id"; optional := false;
     info := set_unique (set_foreign_key "conversion_jobs.id" Field) |}.
Definition f_filename : ModelField :=
  {| field_name := "filename"; optional := false;
     info := set_max_length 255 Field |}.
Definition f_file_path : ModelField :=
  {| field_name := "file_path"; optional := false;
     info := set_max_length 500 Field |}.
Definition f_file_size : ModelField :=
  {| field_name := "file_size"; optional := false; info := set_ge 0 Field |}.
Definition f_mime_type : ModelField :=
  {| field_name := "mime_type"; optional := false;
     info := set_max_length 100 Field |}.
Definition f_width : ModelField :=
  {| field_name := "width"; optional := false; info := set_ge 0 Field |}.
Definition f_height : ModelField :=
  {| field_name := "height"; optional := false; info := set_ge 0 Field |}.
Definition f_quality_used : ModelField :=
  {| field_name := "quality_used"; optional := true;
     info := set_le 100 (set_ge 1 Field) |}.
Definition f_download_count : ModelField :=
  {| field_name := "download_count"; optional := false;
     info := set_ge 0 Field |}.

Definition f_format : ModelField :=
  {| field_name := "format"; optional := false; info := Field |}.
Definition f_created_at : ModelField :=
  {| field_name := "created_at"; optional := false; info := Field |}.
Definition f_last_downloaded_at : ModelField :=
  {| field_name := "last_downloaded_at"; optional := true; info := Field |}.
Definition f_expires_at : ModelField :=
  {| field_name := "expires_at"; optional := true; info := Field |}.
Definition f_is_deleted : ModelField :=
  {| field_name := "is_deleted"; optional := false; info := Field |}.

(** The attributes that are columns of the table, in declaration order. *)
Definition columns : list ModelField :=
  [f_id; f_conversion_job_id; f_filename; f_file_path; f_file_size;
   f_mime_type; f_format; f_width; f_height; f_quality_used; f_created_at;
   f_download_count; f_last_downloaded_at; f_expires_at; f_is_deleted].

Definition tablename := "converted_images".

(** The declared constraints on the attributes of a converted image. *)
Definition checks (c : t) : list (string * bool) :=
  [ ("filename", str_ok (info f_filename) (filename c));
    ("file_path", str_ok (info f_file_path) (file_path c));
    ("file_size", int_ok (info f_file_size) (file_size c));
    ("mime_type", str_ok (info f_mime_type) (mime_type c));
    ("width", int_ok (info f_width) (width c));
    ("height", int_ok (info f_height) (height c));
    ("quality_used", opt_int_ok (info f_quality_used) (quality_used c));
    ("download_count", int_ok (info f_download_count) (download_count c)) ].

(** [ConvertedImage(...)], with the same convention as
    [ConversionJob.init] for the arguments that have a default.  The class
    is a table: its construction takes the values as they are given and
    runs none of the checks above. *)
Definition init (utcnow : datetime)
    (id : option Z) (conversion_job_id : Z) (filename file_path : string)
    (file_size : Z) (mime_type : string) (format : ImageFormat)
    (width height : Z) (quality_used : option Z)
    (created_at : option datetime) (download_count : option Z)
    (last_downloaded_at expires_at : option datetime)
    (is_deleted : option bool) : t :=
  {| id := id;
     conversion_job_id := conversion_job_id;
     filename := filename;
     file_path := file_path;
     file_size := file_size;
     mime_type := mime_type;
     format := format;
     width := width;
     height := height;
     quality_used := quality_used;
     created_at := default utcnow created_at;
     download_count := default 0 download_count;
     last_downloaded_at := last_downloaded_at;
     expires_at := expires_at;
     is_deleted := default false is_deleted |}.

End ConvertedImage.

(** ** User and upload schemas (models.py, lines 122-143)

    Like the request schemas below, these classes validate on construction. *)

Module UserCreate.

Record t := mk {
  email : string;
  name : string
}.

Definition f_email : ModelField :=
  {| field_name := "email"; optional := false;
     info := set_max_length 255 Field |}.
Definition f_name : ModelField :=
  {| field_name := "name"; optional := false;
     info := set_max_length 100 Field |}.

Definition checks (email name : string) : list (string * bool) :=
  [ ("email", str_ok (info f_email) email);
    ("name", str_ok (info f_name) name) ].

(** [UserCreate(email=..., name=...)] *)
Definition init (email name : string) : result t :=
  match failures (checks email name) with
  | [] => Ok {| email := email; name := name |}
  | fs => Err (ValidationError fs)
  end.

End UserCreate.

Module UserUpdate.

Record t := mk {
  email : option string;
  name : option string;
  is_active : option bool
}.

Definition f_email : ModelField :=
  {| field_name := "email"; optional := true;
     info := set_max_length 255 Field |}.
Definition f_name : ModelField :=
  {| field_name := "name"; optional := true;
     info := set_max_length 100 Field |}.

Definition checks (email name : option string) : list (string * bool) :=
  [ ("email", opt_str_ok (info f_email) email);
    ("name", opt_str_ok (info f_name) name) ].

(** [UserUpdate(...)]: every argument may be left out, which is [None]. *)
Definition init (email name : option string) (is_active : option bool)
    : result t :=
  match failures (checks email name) with
  | [] => Ok {| email := email; name := name; is_active := is_active |}
  | fs => Err (ValidationError fs)
  end.

End UserUpdate.

Module ImageUploadRequest.

Record t := mk {
  user_id : option Z;
  original_filename : string;
  file_size : Z;
  mime_type : string
}.

Definition f_original_filename : ModelField :=
  {| field_name := "original_filename"; optional := false;
     info := set_max_length 255 Field |}.
Definition f_file_size : ModelField :=
  {| field_name := "file_size"; optional := false; info := set_ge 0 Field |}.
Definition f_mime_type : ModelField :=
  {| field_name := "mime_type"; optional := false;
     info := set_max_length 100 Field |}.

Definition checks (original_filename : string) (file_size : Z)
    (mime_type : string) : list (string * bool) :=
  [ ("original_filename", str_ok (info f_original_filename) original_filename);
    ("file_size", int_ok (info f_file_size) file_size);
    ("mime_type", str_ok (info f_mime_type) mime_type) ].

(** [ImageUploadRequest(...)]; [user_id] may be left out, which is [None]. *)
Definition init (user_id : option Z) (original_filename : string)
    (file_size : Z) (mime_type : string) : result t :=
  match failures (checks original_filename file_size mime_type) with
  | [] => Ok {| user_id := user_id; original_filename := original_filename;
                file_size := file_size; mime_type := mime_type |}
  | fs => Err (ValidationError fs)
  end.

End ImageUploadRequest.

(** ** Request schemas (models.py, lines 146-180)

    These classes are not tables: constructing one validates the declared
    constraints and raises [ValidationError] naming the offending fields. *)

Module ConversionRequest.

Record t := mk {
  source_image_id : Z;
  target_format : ImageFormat;
  user_id : option Z;
  quality : option Z;
  width : option Z;
  height : option Z;
  maintain_aspect_ratio : bool
}.

Definition f_quality : ModelField :=
  {| field_name := "quality"; optional := true;
     info := set_le 100 (set_ge 1 Field) |}.
Definition f_width : ModelField :=
  {| field_name := "width"; optional := true; info := set_ge 1 Field |}.
Definition f_height : ModelField :=
  {| field_name := "height"; optional := true; info := set_ge 1 Field |}.

(** The keyword arguments of a construction, before validation: the
    format arrives as its string value, and an argument that has a default
    may be absent. *)
Record payload := mk_payload {
  p_source_image_id : Z;
  p_target_format : string;
  p_user_id : option Z;
  p_quality : option Z;
  p_width : option Z;
  p_height : option Z;
  p_maintain_aspect_ratio : option bool
}.

Definition checks (p : payload) : list (string * bool) :=
  [ ("target_format", bool_decide (is_Some (ImageFormat_of_value (p_target_format p))));
    ("quality", opt_int_ok (info f_quality) (p_quality p));
    ("width", opt_int_ok (info f_width) (p_width p));
    ("height", opt_int_ok (info f_height) (p_height p)) ].

(** Construction of a [ConversionRequest] from the payload. *)
Definition init (p : payload) : result t :=
  match failures (checks p), ImageFormat_of_value (p_target_format p) with
  | [], Some f =>
      Ok {| source_image_id := p_source_image_id p;
            target_format := f;
            user_id := p_user_id p;
            quality := p_quality p;
            width := p_width p;
            height := p_height p;
            maintain_aspect_ratio := default true (p_maintain_aspect_ratio p) |}
  | [], None => Err (ValidationError ["target_format"])
  | fs, _ => Err (ValidationError fs)
  end.

End ConversionRequest.

Module ConversionJobUpdate.

Record t := mk {
  status : option ConversionStatus;
  started_at : option datetime;
  completed_at : option datetime;
  error_message : option string;
  processing_time_seconds : option Decimal
}.

Definition f_error_message : ModelField :=
  {| field_name := "error_message"; optional := true;
     info := set_max_length 1000 Field |}.

(** [ConversionJobUpdate()]: every field defaults to [None]. *)
Definition empty : t :=
  {| status := None; started_at := None; completed_at := None;
     error_message := None; processing_time_seconds := None |}.

End ConversionJobUpdate.

Module ConvertedImageCreate.

Record t := mk {
  conversion_job_id : Z;
  filename : string;
  file_path : string;
  file_size : Z;
  mime_type : string;
  format : ImageFormat;
  width : Z;
  height : Z;
  quality_used : option Z;
  expires_at : option datetime
}.

Definition f_filename : ModelField :=
  {| field_name := "filename"; optional := false;
     info := set_max_length 255 Field |}.
Definition f_file_path : ModelField :=
  {| field_name := "file_path"; optional := false;
     info := set_max_length 500 Field |}.
Definition f_file_size : ModelField :=
  {| field_name := "file_size"; optional := false; info := set_ge 0 Field |}.
Definition f_mime_type : ModelField :=
  {| field_name := "mime_type"; optional := false;
     info := set_max_length 100 Field |}.
Definition f_width : ModelField :=
  {| field_name := "width"; optional := false; info := set_ge 0 Field |}.
Definition f_height : ModelField :=
  {| field_name := "height"; optional := false; info := set_ge 0 Field |}.
Definition f_quality_used : ModelField :=
  {| field_name := "quality_used"; optional := true;
     info := set_le 100 (set_ge 1 Field) |}.

Definition checks (c : t) : list (string * bool) :=
  [ ("filename", str_ok (info f_filename) (filename c));
    ("file_path", str_ok (info f_file_path) (file_path c));
    ("file_size", int_ok (info f_file_size) (file_size c));
    ("mime_type", str_ok (info f_mime_type) (mime_type c));
    ("width", int_ok (info f_width) (width c));
    ("height", int_ok (info f_height) (height c));
    ("quality_used", opt_int_ok (info f_quality_used) (quality_used c)) ].

(** [ConvertedImageCreate(...)]: the class is not a table, so the
    construction validates the constraints; [quality_used] and [expires_at]
    may be left out, which is [None]. *)
Definition init (conversion_job_id : Z) (filename file_path : string)
    (file_size : Z) (mime_type : string) (format : ImageFormat)
    (width height : Z) (quality_used : option Z)
    (expires_at : option datetime) : result t :=
  let r := {| conversion_job_id := conversion_job_id;
              filename := filename;
              file_path := file_path;
              file_size := file_size;
              mime_type := mime_type;
              format := format;
              width := width;
              height := height;
              quality_used := quality_used;
              expires_at := expires_at |} in
  match failures (checks r) with
  | [] => Ok r
  | fs => Err (ValidationError fs)
  end.

End ConvertedImageCreate.

(** ** Response schemas and their [dict] overrides (models.py, lines 183-250) *)

(** The Python values that occur in the dictionaries. *)
Inductive value :=
  | VNone
  | VBool (b : bool)
  | VInt (n : Z)
  | VStr (s : string)
  | VDecimal (d : Decimal)
  | VDatetime (d : datetime)
  | VImageFormat (f : ImageFormat)
  | VConversionStatus (s : ConversionStatus).

#[global] Instance value_eq_dec : EqDecision value.
Proof. solve_decision. Defined.

Definition opt_value {A} (inj : A -> value) (o : option A) : value :=
  match o with
  | Some a => inj a
  | None => VNone
  end.

(** Truth value of an object in a condition.  A member of a [str]
    enumeration is the string of its value. *)
Definition truthy (v : value) : bool :=
  match v with
  | VNone => false
  | VBool b => b
  | VInt n => negb (n =? 0)%Z
  | VStr s => negb (String.eqb s "")
  | VDecimal d => Decimal.is_nonzero d
  | VDatetime _ => true
  | VImageFormat f => negb (String.eqb (ImageFormat_value f) "")
  | VConversionStatus c => negb (String.eqb (ConversionStatus_value c) "")
  end.

(** [v.isoformat()]: only a datetime has the method. *)
Definition call_isoformat (v : value) : result value :=
  match v with
  | VDatetime d => Ok (VStr (Datetime.isoformat d))
  | _ => Err (AttributeError "isoformat")
  end.

(** The keyword arguments of [dict] that select entries. *)
Record DictKwargs := {
  include : option (gset string);
  exclude : option (gset string);
  exclude_none : bool
}.

Definition no_kwargs : DictKwargs :=
  {| include := None; exclude := None; exclude_none := false |}.

Definition keep (kw : DictKwargs) (entry : string * value) : bool :=
  match include kw with
  | Some s => bool_decide (entry.1 ∈ s)
  | None => true
  end
  && match exclude kw with
     | Some s => negb (bool_decide (entry.1 ∈ s))
     | None => true
     end
  && negb (exclude_none kw && bool_decide (entry.2 = VNone)).

(** [BaseModel.dict] with keyword arguments: the attributes of the object in declaration
    order, restricted to the entries the keyword arguments select. *)
Definition BaseModel_dict (fields : list (string * value)) (kw : DictKwargs)
    : gmap string value :=
  list_to_map (List.filter (keep kw) fields).

(** The body shared by the three overrides:
    [if field in data and data[field]: data[field] = data[field].isoformat()] *)
Definition isoformat_entry (data : gmap string value) (field : string)
    : result (gmap string value) :=
  match data !! field with
  | Some v =>
      if truthy v
      then iso ← call_isoformat v; Ok (<[field := iso]> data)
      else Ok data
  | None => Ok data
  end.

(** [for field in fields: ...] *)
Fixpoint isoformat_entries (fields : list string) (data : gmap string value)
    : result (gmap string value) :=
  match fields with
  | [] => Ok data
  | field :: rest => data' ← isoformat_entry data field; isoformat_entries rest data'
  end.

Module ImageMetadata.

Record t := mk {
  id : Z;
  filename : string;
  file_size : Z;
  format : ImageFormat;
  width : option Z;
  height : option Z;
  upload_date : datetime;
  mime_type : string
}.

Definition fields (self : t) : list (string * value) :=
  [ ("id", VInt (id self));
    ("filename", VStr (filename self));
    ("file_size", VInt (file_size self));
    ("format", VImageFormat (format self));
    ("width", opt_value VInt (width self));
    ("height", opt_value VInt (height self));
    ("upload_date", VDatetime (upload_date self));
    ("mime_type", VStr (mime_type self)) ].

Definition datetime_fields : list string := ["upload_date"].

Definition dict (self : t) (kwargs : DictKwargs) : result (gmap string value) :=
  let data := BaseModel_dict (fields self) kwargs in
  isoformat_entry data "upload_date".

End ImageMetadata.

Module ConversionJobResponse.

Record t := mk {
  id : Z;
  source_image_id : Z;
  target_format : ImageFormat;
  status : ConversionStatus;
  quality : option Z;
  width : option Z;
  height : option Z;
  maintain_aspect_ratio : bool;
  created_at : datetime;
  started_at : option datetime;
  completed_at : option datetime;
  error_message : option string;
  processing_time_seconds : option Decimal
}.

Definition fields (self : t) : list (string * value) :=
  [ ("id", VInt (id self));
    ("source_image_id", VInt (source_image_id self));
    ("target_format", VImageFormat (target_format self));
    ("status", VConversionStatus (status self));
    ("quality", opt_value VInt (quality self));
    ("width", opt_value VInt (width self));
    ("height", opt_value VInt (height self));
    ("maintain_aspect_ratio", VBool (maintain_aspect_ratio self));
    ("created_at", VDatetime (created_at self));
    ("started_at", opt_value VDatetime (started_at self));
    ("completed_at", opt_value VDatetime (completed_at self));
    ("error_message", opt_value VStr (error_message self));
    ("processing_time_seconds", opt_value VDecimal (processing_time_seconds self)) ].

Definition datetime_fields : list string :=
  ["created_at"; "started_at"; "completed_at"].

Definition dict (self : t) (kwargs : DictKwargs) : result (gmap string value) :=
  let data := BaseModel_dict (fields self) kwargs in
  isoformat_entries datetime_fields data.

End ConversionJobResponse.

Module ConvertedImageResponse.

Record t := mk {
  id : Z;
  filename : string;
  file_size : Z;
  format : ImageFormat;
  width : Z;
  height : Z;
  quality_used : option Z;
  created_at : datetime;
  download_count : Z;
  last_downloaded_at : option datetime;
  expires_at : option datetime
}.

Definition fields (self : t) : list (string * value) :=
  [ ("id", VInt (id self));
    ("filename", VStr (filename self));
    ("file_size", VInt (file_size self));
    ("format", VImageFormat (format self));
    ("width", VInt (width self));
    ("height", VInt (height self));
    ("quality_used", opt_value VInt (quality_used self));
    ("created_at", VDatetime (created_at self));
    ("download_count", VInt (download_count self));
    ("last_downloaded_at", opt_value VDatetime (last_downloaded_at self));
    ("expires_at", opt_value VDatetime (expires_at self)) ].

Definition datetime_fields : list string :=
  ["created_at"; "last_downloaded_at"; "expires_at"].

Definition dict (self : t) (kwargs : DictKwargs) : result (gmap string value) :=
  let data := BaseModel_dict (fields self) kwargs in
  isoformat_entries datetime_fields data.

End ConvertedImageResponse.

(** ** The four tables and the constraints their columns declare *)

Record Db := {
  users : list User.t;
  uploaded_images : list UploadedImage.t;
  conversion_jobs : list ConversionJob.t;
  converted_images : list ConvertedImage.t
}.

Definition empty_db : Db :=
  {| users := []; uploaded_images := []; conversion_jobs := [];
     converted_images := [] |}.

(** The keys a foreign key declared as ["table.id"] may take. *)
Definition referenced_keys (db : Db) (target : string) : list Z :=
  if decide (target = "users.id") then omap User.id (users db)
  else if decide (target = "uploaded_images.id")
       then omap UploadedImage.id (uploaded_images db)
  else if decide (target = "conversion_jobs.id")
       then omap ConversionJob.id (conversion_jobs db)
  else [].

(** A column that is not nullable holds no [NULL]. *)
Definition not_null_ok {K} (c : Column) (vals : list (option K)) : Prop :=
  col_nullable c = false -> Forall is_Some vals.

(** A primary key or unique column holds no value twice. *)
Definition unique_ok {K} (c : Column) (vals : list (option K)) : Prop :=
  col_primary_key c || col_unique c = true -> NoDup (omap id vals).

(** A foreign key that is not [NULL] is a key of the referenced table. *)
Definition foreign_key_ok (db : Db) (c : Column) (vals : list (option Z)) : Prop :=
  match col_foreign_key c with
  | None => True
  | Some target => Forall (fun k => k ∈ referenced_keys db target) (omap id vals)
  end.

Definition column_ok (db : Db) (c : Column) (vals : list (option Z)) : Prop :=
  not_null_ok c vals /\ unique_ok c vals /\ foreign_key_ok db c vals.

(** The constraints of the key columns of the four tables. *)
Definition db_wf (db : Db) : Prop :=
  column_ok db (column_of User.f_id) (User.id <$> users db) /\
  unique_ok (column_of User.f_email) (Some ∘ User.email <$> users db) /\
  column_ok db (column_of UploadedImage.f_id)
    (UploadedImage.id <$> uploaded_images db) /\
  column_ok db (column_of UploadedImage.f_user_id)
    (UploadedImage.user_id <$> uploaded_images db) /\
  column_ok db (column_of ConversionJob.f_id)
    (ConversionJob.id <$> conversion_jobs db) /\
  column_ok db (column_of ConversionJob.f_user_id)
    (ConversionJob.user_id <$> conversion_jobs db) /\
  column_ok db (column_of ConversionJob.f_source_image_id)
    (Some ∘ ConversionJob.source_image_id <$> conversion_jobs db) /\
  column_ok db (column_of ConvertedImage.f_id)
    (ConvertedImage.id <$> converted_images db) /\
  column_ok db (column_of ConvertedImage.f_conversion_job_id)
    (Some ∘ ConvertedImage.conversion_job_id <$> converted_images db).

#[global] Instance not_null_ok_dec {K} (c : Column) (vals : list (option K)) :
  Decision (not_null_ok c vals).
Proof. unfold not_null_ok. apply _. Defined.

#[global] Instance unique_ok_dec `{EqDecision K} (c : Column)
  (vals : list (option K)) : Decision (unique_ok c vals).
Proof. unfold unique_ok. apply _. Defined.

#[global] Instance foreign_key_ok_dec db c vals : Decision (foreign_key_ok db c vals).
Proof. unfold foreign_key_ok. destruct (col_foreign_key c); apply _. Defined.

#[global] Instance column_ok_dec db c vals : Decision (column_ok db c vals).
Proof. unfold column_ok. apply _. Defined.

#[global] Instance db_wf_dec db : Decision (db_wf db).
Proof. unfold db_wf. apply _. Defined.

(** The relationship attributes, resolved through the foreign keys. *)

(** [job.source_image] *)
Definition source_image (db : Db) (j : ConversionJob.t) : option UploadedImage.t :=
  List.find (fun i => bool_decide (UploadedImage.id i = Some (ConversionJob.source_image_id j)))
            (uploaded_images db).

(** [job.converted_image] *)
Definition converted_image (db : Db) (j : ConversionJob.t) : option ConvertedImage.t :=
  match ConversionJob.id j with
  | None => None
  | Some k =>
      List.find (fun c => bool_decide (ConvertedImage.conversion_job_id c = k))
                (converted_images db)
  end.

(** [converted.conversion_job] *)
Definition conversion_job (db : Db) (c : ConvertedImage.t) : option ConversionJob.t :=
  List.find (fun j => bool_decide (ConversionJob.id j = Some (ConvertedImage.conversion_job_id c)))
            (conversion_jobs db).

(** [image.user] *)
Definition image_user (db : Db) (i : UploadedImage.t) : option User.t :=
  match UploadedImage.user_id i with
  | None => None
  | Some k => List.find (fun u => bool_decide (User.id u = Some k)) (users db)
  end.

(** [job.user] *)
Definition job_user (db : Db) (j : ConversionJob.t) : option User.t :=
  match ConversionJob.user_id j with
  | None => None
  | Some k => List.find (fun u => bool_decide (User.id u = Some k)) (users db)
  end.

(** [user.uploaded_images] *)
Definition user_uploaded_images (db : Db) (u : User.t) : list UploadedImage.t :=
  match User.id u with
  | None => []
  | Some k =>
      List.filter (fun i => bool_decide (UploadedImage.user_id i = Some k))
                  (uploaded_images db)
  end.

(** [user.conversion_jobs] *)
Definition user_conversion_jobs (db : Db) (u : User.t) : list ConversionJob.t :=
  match User.id u with
  | None => []
  | Some k =>
      List.filter (fun j => bool_decide (ConversionJob.user_id j = Some k))
                  (conversion_jobs db)
  end.

(** [image.conversion_jobs] *)
Definition image_conversion_jobs (db : Db) (i : UploadedImage.t)
    : list ConversionJob.t :=
  match UploadedImage.id i with
  | None => []
  | Some k =>
      List.filter (fun j => bool_decide (ConversionJob.source_image_id j = k))
                  (conversion_jobs db)
  end.

(** The tables the file declares, with their columns. *)
Definition tables : list (string * list ModelField) :=
  [ (User.tablename, User.columns);
    (UploadedImage.tablename, UploadedImage.columns);
    (ConversionJob.tablename, ConversionJob.columns);
    (ConvertedImage.tablename, ConvertedImage.columns) ].

(** ** The lifecycle invariant of a job, as the specification states it *)

Definition started (s : ConversionStatus) : bool :=
  match s with
  | PENDING => false
  | PROCESSING | COMPLETED | FAILED => true
  end.

Definition terminal (s : ConversionStatus) : bool :=
  match s with
  | PENDING | PROCESSING => false
  | COMPLETED | FAILED => true
  end.

Definition job_invariant (db : Db) (j : ConversionJob.t) : Prop :=
  (is_Some (ConversionJob.started_at j) <-> started (ConversionJob.status j) = true) /\
  (is_Some (ConversionJob.completed_at j) <-> terminal (ConversionJob.status j) = true) /\
  (is_Some (converted_image db j) <-> ConversionJob.status j = COMPLETED).

Definition lifecycle_invariant (db : Db) : Prop :=
  Forall (job_invariant db) (conversion_jobs db).

#[global] Instance job_invariant_dec db j : Decision (job_invariant db j).
Proof. unfold job_invariant. apply _. Defined.

#[global] Instance lifecycle_invariant_dec db : Decision (lifecycle_invariant db).
Proof. unfold lifecycle_invariant. apply _. Defined.

(** ** The Conversion Job Lifecycle Engine

    The engine (submit and the transitions claim, succeed, fail, cancel of
    the specification, section 4.4) and the operations of the entity store it
    calls (section 4.1) have no code in [models.py]; they are written here
    from the specification, over the classes above. *)

Module Engine.

(** Modelled from the spec: the store with its table of jobs replaced. *)
Definition with_conversion_jobs (db : Db) (js : list ConversionJob.t) : Db :=
  {| users := users db; uploaded_images := uploaded_images db;
     conversion_jobs := js; converted_images := converted_images db |}.

(** Modelled from the spec: the store with its table of converted images
    replaced. *)
Definition with_converted_images (db : Db) (cs : list ConvertedImage.t) : Db :=
  {| users := users db; uploaded_images := uploaded_images db;
     conversion_jobs := conversion_jobs db; converted_images := cs |}.

(** Modelled from the spec: the primary key the store gives a new row, one
    more than the largest key in the table. *)
Definition next_id (ids : list (option Z)) : Z :=
  1 + foldr Z.max 0 (omap id ids).

(** Modelled from the spec: [get_image(id) -> UploadedImage | NotFound]. *)
Definition get_image (db : Db) (k : Z) : option UploadedImage.t :=
  List.find (fun i => bool_decide (UploadedImage.id i = Some k))
            (uploaded_images db).

(** Modelled from the spec: [get_job(id) -> ConversionJob | NotFound]. *)
Definition get_job (db : Db) (k : Z) : option ConversionJob.t :=
  List.find (fun j => bool_decide (ConversionJob.id j = Some k))
            (conversion_jobs db).

(** Modelled from the spec: [create_job(req) -> ConversionJob]; the job
    takes the request's fields and the defaults of [ConversionJob] for
    every other attribute. *)
Definition create_job (db : Db) (utcnow : datetime) (req : ConversionRequest.t)
    : Db * ConversionJob.t :=
  let j := ConversionJob.init utcnow
             (Some (next_id (ConversionJob.id <$> conversion_jobs db)))
             (ConversionRequest.user_id req)
             (ConversionRequest.source_image_id req)
             (ConversionRequest.target_format req)
             None
             (ConversionRequest.quality req)
             (ConversionRequest.width req)
             (ConversionRequest.height req)
             (Some (ConversionRequest.maintain_aspect_ratio req))
             None None None None None in
  (with_conversion_jobs db (conversion_jobs db ++ [j]), j).

(** Modelled from the spec: [create_converted_image(record) ->
    ConvertedImage]; the row takes the record's fields and the defaults of
    [ConvertedImage] for every other attribute. *)
Definition create_converted_image (db : Db) (utcnow : datetime)
    (r : ConvertedImageCreate.t) : Db * ConvertedImage.t :=
  let c := ConvertedImage.init utcnow
             (Some (next_id (ConvertedImage.id <$> converted_images db)))
             (ConvertedImageCreate.conversion_job_id r)
             (ConvertedImageCreate.filename r)
             (ConvertedImageCreate.file_path r)
             (ConvertedImageCreate.file_size r)
             (ConvertedImageCreate.mime_type r)
             (ConvertedImageCreate.format r)
             (ConvertedImageCreate.width r)
             (ConvertedImageCreate.height r)
             (ConvertedImageCreate.quality_used r)
             None None None
             (ConvertedImageCreate.expires_at r)
             None in
  (with_converted_images db (converted_images db ++ [c]), c).

(** Modelled from the spec: the fields of a [ConversionJobUpdate] that are
    set replace the job's, the others are left as they are. *)
Definition apply_update (u : ConversionJobUpdate.t) (j : ConversionJob.t)
    : ConversionJob.t :=
  {| ConversionJob.id := ConversionJob.id j;
     ConversionJob.user_id := ConversionJob.user_id j;
     ConversionJob.source_image_id := ConversionJob.source_image_id j;
     ConversionJob.target_format := ConversionJob.target_format j;
     ConversionJob.status :=
       default (ConversionJob.status j) (ConversionJobUpdate.status u);
     ConversionJob.quality := ConversionJob.quality j;
     ConversionJob.width := ConversionJob.width j;
     ConversionJob.height := ConversionJob.height j;
     ConversionJob.maintain_aspect_ratio := ConversionJob.maintain_aspect_ratio j;
     ConversionJob.created_at := ConversionJob.created_at j;
     ConversionJob.started_at :=
       match ConversionJobUpdate.started_at u with
       | Some d => Some d
       | None => ConversionJob.started_at j
       end;
     ConversionJob.completed_at :=
       match ConversionJobUpdate.completed_at u with
       | Some d => Some d
       | None => ConversionJob.completed_at j
       end;
     ConversionJob.error_message :=
       match ConversionJobUpdate.error_message u with
       | Some m => Some m
       | None => ConversionJob.error_message j
       end;
     ConversionJob.processing_time_seconds :=
       match ConversionJobUpdate.processing_time_seconds u with
       | Some t => Some t
       | None => ConversionJob.processing_time_seconds j
       end |}.

(** Modelled from the spec: the rows a guarded update of job [k] touches,
    those of the job whose status passes the guard. *)
Definition job_matches (k : Z) (guard : ConversionStatus -> bool)
    (j : ConversionJob.t) : bool :=
  bool_decide (ConversionJob.id j = Some k) && guard (ConversionJob.status j).

(** Modelled from the spec: [update_job(id, fields, expected) -> ok |
    conflict], the single atomic conditional update: the row of job [k] is
    changed when its status is the expected one, and the caller is told
    of the conflict when no row was. *)
Definition update_job (db : Db) (k : Z) (guard : ConversionStatus -> bool)
    (u : ConversionJobUpdate.t) : result Db :=
  if existsb (job_matches k guard) (conversion_jobs db)
  then Ok (with_conversion_jobs db
             ((fun j => if job_matches k guard j then apply_update u j else j)
                <$> conversion_jobs db))
  else Err Conflict.

(** Modelled from the spec: the statuses the transitions expect. *)
Definition is_pending (s : ConversionStatus) : bool := bool_decide (s = PENDING).
Definition is_processing (s : ConversionStatus) : bool := bool_decide (s = PROCESSING).

(** Modelled from the spec: [submit(ConversionRequest) -> ConversionJob]
    validates the request and that the source image exists and is not
    deleted, creates the job, and fails with [ValidationError] otherwise
    without creating anything. *)
Definition submit (db : Db) (utcnow : datetime) (p : ConversionRequest.payload)
    : Db * result ConversionJob.t :=
  match ConversionRequest.init p with
  | Err e => (db, Err e)
  | Ok req =>
      match get_image db (ConversionRequest.source_image_id req) with
      | None => (db, Err (ValidationError ["source_image_id"]))
      | Some img =>
          if UploadedImage.is_deleted img
          then (db, Err (ValidationError ["source_image_id"]))
          else let '(db', j) := create_job db utcnow req in (db', Ok j)
      end
  end.

(** Modelled from the spec: the fields [claim()] writes,
    [status = PROCESSING] and [started_at = now]. *)
Definition claim_fields (now : datetime) : ConversionJobUpdate.t :=
  {| ConversionJobUpdate.status := Some PROCESSING;
     ConversionJobUpdate.started_at := Some now;
     ConversionJobUpdate.completed_at := None;
     ConversionJobUpdate.error_message := None;
     ConversionJobUpdate.processing_time_seconds := None |}.

(** Modelled from the spec: [claim()], PENDING to PROCESSING, sets
    [started_at = now]; a conflict when the job is not PENDING. *)
Definition claim (db : Db) (now : datetime) (k : Z) : result Db :=
  update_job db k is_pending (claim_fields now).

(** Modelled from the spec: [cancel()], PENDING or PROCESSING to FAILED
    with [error_message = "cancelled"]; the transition table gives it no
    other effect. *)
Definition cancel (db : Db) (k : Z) : result Db :=
  update_job db k (fun s => negb (terminal s))
    {| ConversionJobUpdate.status := Some FAILED;
       ConversionJobUpdate.started_at := None;
       ConversionJobUpdate.completed_at := None;
       ConversionJobUpdate.error_message := Some "cancelled";
       ConversionJobUpdate.processing_time_seconds := None |}.

Section Timed.

(** The difference of two instants in seconds, [completed_at - started_at]. *)
Variable elapsed : datetime -> datetime -> Decimal.

(** Modelled from the spec: [processing_time_seconds] is
    [completed_at - started_at]. *)
Definition processing_time (j : ConversionJob.t) (now : datetime)
    : option Decimal :=
  (fun s => elapsed s now) <$> ConversionJob.started_at j.

(** Modelled from the spec: [succeed(artifact)], PROCESSING to COMPLETED,
    sets [completed_at = now] and [processing_time_seconds], and persists
    the artifact as the ConvertedImage of the job. *)
Definition succeed (db : Db) (now : datetime) (k : Z)
    (artifact : ConvertedImageCreate.t) : result Db :=
  match get_job db k with
  | None => Err NotFound
  | Some j =>
      db1 ← update_job db k is_processing
              {| ConversionJobUpdate.status := Some COMPLETED;
                 ConversionJobUpdate.started_at := None;
                 ConversionJobUpdate.completed_at := Some now;
                 ConversionJobUpdate.error_message := None;
                 ConversionJobUpdate.processing_time_seconds :=
                   processing_time j now |};
      Ok (create_converted_image db1 now
            {| ConvertedImageCreate.conversion_job_id := k;
               ConvertedImageCreate.filename := ConvertedImageCreate.filename artifact;
               ConvertedImageCreate.file_path := ConvertedImageCreate.file_path artifact;
               ConvertedImageCreate.file_size := ConvertedImageCreate.file_size artifact;
               ConvertedImageCreate.mime_type := ConvertedImageCreate.mime_type artifact;
               ConvertedImageCreate.format := ConvertedImageCreate.format artifact;
               ConvertedImageCreate.width := ConvertedImageCreate.width artifact;
               ConvertedImageCreate.height := ConvertedImageCreate.height artifact;
               ConvertedImageCreate.quality_used := ConvertedImageCreate.quality_used artifact;
               ConvertedImageCreate.expires_at := ConvertedImageCreate.expires_at artifact |}).1
  end.

(** Modelled from the spec: [fail(error)], PROCESSING to FAILED, sets
    [completed_at = now], [error_message] and [processing_time_seconds]. *)
Definition fail (db : Db) (now : datetime) (k : Z) (err : string) : result Db :=
  match get_job db k with
  | None => Err NotFound
  | Some j =>
      update_job db k is_processing
        {| ConversionJobUpdate.status := Some FAILED;
           ConversionJobUpdate.started_at := None;
           ConversionJobUpdate.completed_at := Some now;
           ConversionJobUpdate.error_message := Some err;
           ConversionJobUpdate.processing_time_seconds := processing_time j now |}
  end.

(** Modelled from the spec: the operations that mutate jobs, and their
    effect on the store; an operation that fails leaves the store as it
    was. *)
Inductive op :=
  | Submit (utcnow : datetime) (p : ConversionRequest.payload)
  | Claim (now : datetime) (k : Z)
  | Succeed (now : datetime) (k : Z) (artifact : ConvertedImageCreate.t)
  | Fail (now : datetime) (k : Z) (err : string).

Definition run (db : Db) (o : op) : Db :=
  match o with
  | Submit utcnow p => (submit db utcnow p).1
  | Claim now k => match claim db now k with Ok db' => db' | Err _ => db end
  | Succeed now k a => match succeed db now k a with Ok db' => db' | Err _ => db end
  | Fail now k e => match fail db now k e with Ok db' => db' | Err _ => db end
  end.

Definition run_all (db : Db) (ops : list op) : Db := foldl run db ops.

End Timed.

End Engine.

(** ** Workers racing to claim one job

    The store executes each conditional update atomically, so a run of
    several workers that all call [claim] on job [k] is an interleaving of
    these updates, in whatever order the workers get to the store. *)

Module Workers.

(** Modelled from the spec: a worker before its call of [claim()], after a
    call that moved the job to PROCESSING (the worker then executes the
    processing body), and after a call that signalled the conflict (the
    worker skips the job). *)
Inductive worker :=
  | Waiting (now : datetime)
  | Claimed
  | Skipped.

Record system := {
  store : Db;
  pool : list worker
}.

(** Modelled from the spec: the call of one worker. *)
Definition attempt (db : Db) (k : Z) (now : datetime) : Db * worker :=
  match Engine.claim db now k with
  | Ok db' => (db', Claimed)
  | Err _ => (db, Skipped)
  end.

(** Modelled from the spec: any worker that has not called yet may be the
    next to reach the store. *)
Inductive step (k : Z) : system -> system -> Prop :=
  | step_attempt (s : system) (i : nat) (now : datetime) :
      pool s !! i = Some (Waiting now) ->
      step k s {| store := (attempt (store s) k now).1;
                  pool := <[i := (attempt (store s) k now).2]> (pool s) |}.

Definition is_waiting (w : worker) : bool :=
  match w with Waiting _ => true | _ => false end.

Definition is_claimed (w : worker) : bool :=
  match w with Claimed => true | _ => false end.

Definition is_skipped (w : worker) : bool :=
  match w with Skipped => true | _ => false end.

Definition count (p : worker -> bool) (ws : list worker) : nat :=
  length (List.filter p ws).

(** Modelled from the spec: every worker has made its call. *)
Definition finished (s : system) : Prop := count is_waiting (pool s) = 0%nat.

(** Modelled from the spec: the workers make their calls in the order of
    the schedule; an index that names no waiting worker is passed over. *)
Definition run_worker (k : Z) (s : system) (i : nat) : system :=
  match pool s !! i with
  | Some (Waiting now) =>
      {| store := (attempt (store s) k now).1;
         pool := <[i := (attempt (store s) k now).2]> (pool s) |}
  | _ => s
  end.

Definition run_schedule (k : Z) (s : system) (schedule : list nat) : system :=
  foldl (run_worker k) s schedule.

End Workers.

(** * The vocabulary of the properties *)

(** ** Sample data *)

(** A store with one user, two uploaded images (the second one deleted), a
    completed job with its converted image and an anonymous pending job. *)
Module Sample.

Definition t0 : datetime := Datetime.mk 2024 5 17 9 30 0 0 None.
Definition t1 : datetime := Datetime.mk 2024 5 17 9 30 2 0 None.
Definition t2 : datetime := Datetime.mk 2024 5 17 9 30 5 250000 None.

Definition user1 : User.t :=
  User.mk (Some 1) "ada@example.org" "Ada" true t0 t0.

Definition image1 : UploadedImage.t :=
  UploadedImage.mk (Some 1) (Some 1) "photo.jpg" "a1.jpg" "/uploads/a1.jpg"
    204800 "image/jpeg" JPEG (Some 1920) (Some 1080) t0 false.

Definition image2 : UploadedImage.t :=
  UploadedImage.mk (Some 2) None "old.png" "b2.png" "/uploads/b2.png"
    1024 "image/png" PNG None None t0 true.

Definition job1 : ConversionJob.t :=
  ConversionJob.init t0 (Some 1) (Some 1) 1 WEBP (Some COMPLETED)
    (Some 85) (Some 960) None None None (Some t1) (Some t2) None
    (Some (Decimal.mk false 325 (-2))).

Definition job2 : ConversionJob.t :=
  ConversionJob.init t1 (Some 2) None 1 PNG None
    None None None None None None None None None.

Definition converted1 : ConvertedImage.t :=
  ConvertedImage.init t2 (Some 1) 1 "photo.webp" "/converted/photo.webp"
    48213 "image/webp" WEBP 960 540 (Some 85) None None None None None.

Definition db : Db :=
  {| users := [user1];
     uploaded_images := [image1; image2];
     conversion_jobs := [job1; job2];
     converted_images := [converted1] |}.

Definition user2 : User.t :=
  User.mk (Some 2) "grace@example.org" "Grace" true t1 t1.

(** The same store with a second user. *)
Definition two_users : Db :=
  {| users := [user1; user2];
     uploaded_images := uploaded_images db;
     conversion_jobs := conversion_jobs db;
     converted_images := converted_images db |}.

End Sample.

(** A run of the engine on the sample store: a third job is submitted, the
    second and third jobs are claimed, the second fails and the third
    succeeds. *)
Module Scenario.

Definition t3 : datetime := Datetime.mk 2024 5 17 9 31 0 0 None.
Definition t4 : datetime := Datetime.mk 2024 5 17 9 31 1 500000 None.
Definition t5 : datetime := Datetime.mk 2024 5 17 9 31 4 0 None.

Definition micros_of_day (d : datetime) : Z :=
  ((Datetime.hour d * 60 + Datetime.minute d) * 60 + Datetime.second d) * 1000000
  + Datetime.microsecond d.

(** The seconds between two instants of the same day. *)
Definition elapsed (s e : datetime) : Decimal :=
  let d := micros_of_day e - micros_of_day s in
  Decimal.mk (d <? 0)%Z (Z.to_N (Z.abs d)) (-6).

Definition request : ConversionRequest.payload :=
  ConversionRequest.mk_payload 1 "webp" (Some 1) (Some 85) (Some 960) None None.

Definition artifact : ConvertedImageCreate.t :=
  ConvertedImageCreate.mk 3 "photo-960.webp" "/converted/photo-960.webp" 48213
    "image/webp" WEBP 960 540 (Some 85) None.

Definition ops : list Engine.op :=
  [ Engine.Submit t3 request;
    Engine.Claim t3 2;
    Engine.Claim t4 3;
    Engine.Fail t4 2 "cannot identify image file";
    Engine.Succeed t5 3 artifact ].

Definition final : Db := Engine.run_all elapsed Sample.db ops.

End Scenario.

(** ** Serialized dictionaries *)

(** What the overrides do to the value of a datetime field. *)
Definition iso_value (v : value) : value :=
  match v with
  | VDatetime d => VStr (Datetime.isoformat d)
  | _ => v
  end.

Definition datetime_or_none (v : value) : Prop :=
  v = VNone \/ exists d, v = VDatetime d.

(** [out] is [base] with the datetimes of the fields [dts] in ISO form. *)
Definition serialized (dts : list string) (base out : gmap string value) : Prop :=
  (forall k d, k ∈ dts -> base !! k = Some (VDatetime d) ->
     out !! k = Some (VStr (Datetime.isoformat d))) /\
  (forall k, k ∈ dts -> base !! k = Some VNone -> out !! k = Some VNone) /\
  (forall k, k ∉ dts -> out !! k = base !! k) /\
  (forall k, is_Some (out !! k) <-> is_Some (base !! k)).

Definition iso (d : datetime) : value := VStr (Datetime.isoformat d).

(** ** Requests, keys and updates *)

(** The payloads from which a conversion request can be constructed. *)
Definition payload_valid (p : ConversionRequest.payload) : Prop :=
  ConversionRequest.p_target_format p
    ∈ ["jpeg"; "jpg"; "png"; "webp"; "bmp"; "tiff"; "gif"] /\
  (forall q, ConversionRequest.p_quality p = Some q -> 1 <= q <= 100) /\
  (forall w, ConversionRequest.p_width p = Some w -> 1 <= w) /\
  (forall h, ConversionRequest.p_height p = Some h -> 1 <= h).

(** The constraints on the keys that tie jobs and converted images. *)
Definition job_keys_ok (db : Db) : Prop :=
  column_ok db (column_of ConversionJob.f_id)
    (ConversionJob.id <$> conversion_jobs db) /\
  column_ok db (column_of ConvertedImage.f_conversion_job_id)
    (Some ∘ ConvertedImage.conversion_job_id <$> converted_images db).

(** The row function of a guarded update. *)
Definition updated (k : Z) (guard : ConversionStatus -> bool)
    (u : ConversionJobUpdate.t) (j : ConversionJob.t) : ConversionJob.t :=
  if Engine.job_matches k guard j then Engine.apply_update u j else j.

(** Some row of job [k] is PENDING. *)
Definition claimable (db : Db) (k : Z) : bool :=
  existsb (Engine.job_matches k Engine.is_pending) (conversion_jobs db).

(** ** A claim that is not one conditional update

    Modelled from the spec: the read-modify-write that the design notes rule
    out.  A worker first reads whether the job is PENDING and, in a later
    step, writes PROCESSING without a guard. *)

Module NaiveWorkers.

Inductive worker :=
  | Idle (now : datetime)
  | SawPending (now : datetime)
  | Won
  | Lost.

Record system := {
  store : Db;
  pool : list worker
}.

Inductive step (k : Z) : system -> system -> Prop :=
  | step_read (s : system) (i : nat) (now : datetime) :
      pool s !! i = Some (Idle now) ->
      step k s {| store := store s;
                  pool := <[i := if claimable (store s) k
                                 then SawPending now else Lost]> (pool s) |}
  | step_write (s : system) (i : nat) (now : datetime) (db' : Db) :
      pool s !! i = Some (SawPending now) ->
      Engine.update_job (store s) k (fun _ => true) (Engine.claim_fields now)
        = Ok db' ->
      step k s {| store := db'; pool := <[i := Won]> (pool s) |}.

End NaiveWorkers.

(** ** Reachable states of a race *)

(** What holds of every state the workers can reach: until some call has
    succeeded the store is the initial one and nobody has been turned away;
    afterwards exactly one worker has claimed the job and the store is the
    result of that one call. *)
Definition race_inv (db0 : Db) (k : Z) (nows : list datetime)
    (s : Workers.system) : Prop :=
  length (Workers.pool s) = length nows /\
  (forall now, Workers.Waiting now ∈ Workers.pool s -> now ∈ nows) /\
  ((claimable (Workers.store s) k = true /\ Workers.store s = db0 /\
    Workers.count Workers.is_claimed (Workers.pool s) = 0%nat /\ Workers.count Workers.is_skipped (Workers.pool s) = 0%nat) \/
   (claimable (Workers.store s) k = false /\
    Workers.count Workers.is_claimed (Workers.pool s) = 1%nat /\
    exists now, now ∈ nows /\ Engine.claim db0 now k = Ok (Workers.store s))).

(** * Properties *)

(** ** Library values *)

Example isoformat_naive :
  Datetime.isoformat (Datetime.mk 2024 1 2 3 4 5 0 None) = "2024-01-02T03:04:05".
Proof. reflexivity. Qed.

Example isoformat_micro_offset :
  Datetime.isoformat (Datetime.mk 2024 11 30 23 59 7 1500 (Some (-19800000000)))
  = "2024-11-30T23:59:07.001500-05:30".
Proof. reflexivity. Qed.

(** ** The enumerations *)

Lemma enum_lookup_value {A} (value : A -> string) (members : list A) s m :
  enum_lookup value members s = Some m -> m ∈ members /\ s = value m.
Proof.
  unfold enum_lookup. intros H. apply List.find_some in H as [Hin Heq].
  apply String.eqb_eq in Heq. split; [by apply list_elem_of_In | done].
Qed.

Lemma ImageFormat_of_value_spec s f :
  ImageFormat_of_value s = Some f <-> s = ImageFormat_value f.
Proof.
  split.
  - intros H. by apply enum_lookup_value in H as [_ ->].
  - intros ->. by destruct f.
Qed.

Lemma ConversionStatus_of_value_spec s c :
  ConversionStatus_of_value s = Some c <-> s = ConversionStatus_value c.
Proof.
  split.
  - intros H. by apply enum_lookup_value in H as [_ ->].
  - intros ->. by destruct c.
Qed.

Lemma ConversionRequest_init_ok p r :
  ConversionRequest.init p = Ok r ->
  ImageFormat_of_value (ConversionRequest.p_target_format p)
    = Some (ConversionRequest.target_format r) /\
  ConversionRequest.source_image_id r = ConversionRequest.p_source_image_id p /\
  ConversionRequest.user_id r = ConversionRequest.p_user_id p /\
  ConversionRequest.quality r = ConversionRequest.p_quality p /\
  ConversionRequest.width r = ConversionRequest.p_width p /\
  ConversionRequest.height r = ConversionRequest.p_height p /\
  failures (ConversionRequest.checks p) = [].
Proof.
  unfold ConversionRequest.init. intros H.
  destruct (failures (ConversionRequest.checks p)) as [|x fs]; [|done].
  destruct (ImageFormat_of_value _) as [f|]; [|done].
  by inversion H.
Qed.

Lemma ImageFormat_accepted s :
  is_Some (ImageFormat_of_value s) <->
  s ∈ ["jpeg"; "jpg"; "png"; "webp"; "bmp"; "tiff"; "gif"].
Proof.
  split.
  - intros [f Hf]. apply ImageFormat_of_value_spec in Hf as ->.
    destruct f; set_solver.
  - intros Hs. repeat (apply elem_of_cons in Hs as [->|Hs]; [by eexists|]).
    by apply elem_of_nil in Hs.
Qed.

(** C7. The members of [ImageFormat] are exactly JPEG, JPG, PNG, WEBP, BMP,
    TIFF and GIF: every value of the type is one of them, they are seven
    distinct members with seven distinct string values, a string is accepted
    as a format exactly when it is one of these values, and a conversion
    request is only constructed from such a string. *)
Theorem ImageFormat_exactly_seven :
  (forall f : ImageFormat, f ∈ [JPEG; JPG; PNG; WEBP; BMP; TIFF; GIF]) /\
  ImageFormat_members = [JPEG; JPG; PNG; WEBP; BMP; TIFF; GIF] /\
  NoDup ImageFormat_members /\
  length ImageFormat_members = 7%nat /\
  ImageFormat_value <$> ImageFormat_members
    = ["jpeg"; "jpg"; "png"; "webp"; "bmp"; "tiff"; "gif"] /\
  NoDup (ImageFormat_value <$> ImageFormat_members) /\
  (forall s f, ImageFormat_of_value s = Some f <-> s = ImageFormat_value f) /\
  (forall s, is_Some (ImageFormat_of_value s) <->
             s ∈ ["jpeg"; "jpg"; "png"; "webp"; "bmp"; "tiff"; "gif"]) /\
  (forall p r, ConversionRequest.init p = Ok r ->
     ConversionRequest.p_target_format p
       = ImageFormat_value (ConversionRequest.target_format r)).
Proof.
  split_and!.
  - intros f. destruct f; set_solver.
  - done.
  - compute_done.
  - done.
  - done.
  - compute_done.
  - apply ImageFormat_of_value_spec.
  - apply ImageFormat_accepted.
  - intros p r H. apply ConversionRequest_init_ok in H as [H _].
    by apply ImageFormat_of_value_spec.
Qed.

(** C8. The status of a job is one of PENDING, PROCESSING, COMPLETED and
    FAILED, four distinct members with four distinct string values; no other
    string is accepted as a status, and a job that is constructed without a
    status is PENDING. *)
Theorem ConversionStatus_exactly_four :
  (forall j : ConversionJob.t,
     ConversionJob.status j ∈ [PENDING; PROCESSING; COMPLETED; FAILED]) /\
  ConversionStatus_members = [PENDING; PROCESSING; COMPLETED; FAILED] /\
  NoDup ConversionStatus_members /\
  length ConversionStatus_members = 4%nat /\
  ConversionStatus_value <$> ConversionStatus_members
    = ["pending"; "processing"; "completed"; "failed"] /\
  NoDup (ConversionStatus_value <$> ConversionStatus_members) /\
  (forall s c, ConversionStatus_of_value s = Some c <-> s = ConversionStatus_value c) /\
  (forall s, is_Some (ConversionStatus_of_value s) <->
             s ∈ ["pending"; "processing"; "completed"; "failed"]) /\
  (forall utcnow i u src f q w h m c st co e t,
     ConversionJob.status
       (ConversionJob.init utcnow i u src f None q w h m c st co e t) = PENDING).
Proof.
  assert (Hall : forall c : ConversionStatus,
             c ∈ [PENDING; PROCESSING; COMPLETED; FAILED])
    by (intros c; destruct c; set_solver).
  split_and!; try done.
  - compute_done.
  - compute_done.
  - apply ConversionStatus_of_value_spec.
  - intros s. split.
    + intros [c Hc]. apply ConversionStatus_of_value_spec in Hc as ->.
      destruct c; set_solver.
    + intros Hs. repeat (apply elem_of_cons in Hs as [->|Hs]; [by eexists|]).
      by apply elem_of_nil in Hs.
Qed.

(** ** Field constraints *)

Lemma failures_nil checks :
  failures checks = [] <-> Forall (fun c => c.2 = true) checks.
Proof.
  unfold failures. induction checks as [|[n b] cs IH]; simpl.
  - split; [by constructor | done].
  - destruct b; simpl.
    + rewrite IH. split; [by constructor | by inversion 1].
    + split; [done | by inversion 1].
Qed.

Lemma int_ok_ge f n v : ge f = Some n -> int_ok f v = true -> n <= v.
Proof.
  unfold int_ok, check_bound. intros -> H.
  apply andb_true_iff in H as [H _]. lia.
Qed.

Lemma int_ok_le f n v : le f = Some n -> int_ok f v = true -> v <= n.
Proof.
  unfold int_ok, check_bound. intros -> H.
  apply andb_true_iff in H as [_ H]. by apply Z.geb_le in H.
Qed.

Lemma int_ok_iff f v :
  int_ok f v = true <->
  (forall n, ge f = Some n -> n <= v) /\ (forall n, le f = Some n -> v <= n).
Proof.
  split.
  - intros H. split; intros n Hn; [by eapply int_ok_ge | by eapply int_ok_le].
  - intros [Hge Hle]. unfold int_ok, check_bound.
    apply andb_true_iff. split.
    + destruct (ge f) as [n|]; [|done]. specialize (Hge n eq_refl). lia.
    + destruct (le f) as [n|]; [|done]. specialize (Hle n eq_refl).
      by apply Z.geb_le.
Qed.




Example str_len_counts_characters :
  str_len "photo.webp" = 10%nat /\ String.length "é" = 2%nat /\ str_len "é" = 1%nat.
Proof. by split_and!. Qed.

(** C6, as stated, fails on the model class: [ConvertedImage] is a table, so
    its construction checks nothing and its columns carry no check either.
    A converted image with a negative width, height and download count and
    a quality of 0 is constructed, and a store that meets every declared
    column constraint holds it, while the constraints its fields declare
    name all four attributes. *)
Lemma ConvertedImage_bounds_not_enforced :
  let c := ConvertedImage.init Sample.t2 (Some 2) 2 "bad.png"
             "/converted/bad.png" 10 "image/png" PNG (-1) (-1) (Some 0)
             None (Some (-3)) None None None in
  let db := {| users := users Sample.db;
               uploaded_images := uploaded_images Sample.db;
               conversion_jobs := conversion_jobs Sample.db;
               converted_images := [Sample.converted1; c] |} in
  db_wf db /\
  c ∈ converted_images db /\
  failures (ConvertedImage.checks c)
    = ["width"; "height"; "quality_used"; "download_count"] /\
  ConvertedImage.width c = -1 /\
  ConvertedImage.height c = -1 /\
  ConvertedImage.quality_used c = Some 0 /\
  ConvertedImage.download_count c = -3 /\
  ~ (0 <= ConvertedImage.width c /\
     0 <= ConvertedImage.height c /\
     (forall q, ConvertedImage.quality_used c = Some q -> 1 <= q <= 100) /\
     0 <= ConvertedImage.download_count c).
Proof.
  intros c db. split_and!; try reflexivity.
  - compute_done.
  - apply list_elem_of_In; simpl; auto.
  - intros (Hw & _). simpl in Hw. lia.
Qed.

Lemma ConvertedImageCreate_init_ok cjid fn fp fs mt fmt w h q e r :
  ConvertedImageCreate.init cjid fn fp fs mt fmt w h q e = Ok r ->
  r = ConvertedImageCreate.mk cjid fn fp fs mt fmt w h q e /\
  failures (ConvertedImageCreate.checks r) = [].
Proof.
  unfold ConvertedImageCreate.init.
  destruct (failures _) as [|x fs'] eqn:E; [|done].
  intros [= <-]. by split.
Qed.

(** C6, amended.  The bounds are enforced where a [ConvertedImageCreate] is
    constructed, which validates its fields.  A converted image that takes
    its fields from a constructed [ConvertedImageCreate] and is given no
    download count has the width, height and quality that were passed, a
    width and a height that are not negative, a quality in [1,100] when
    there is one, and the download count 0. *)
Theorem ConvertedImage_bounds_from_create
    cjid fn fp fs mt fmt w h q e (r : ConvertedImageCreate.t)
    utcnow id created last deleted :
  ConvertedImageCreate.init cjid fn fp fs mt fmt w h q e = Ok r ->
  let c := ConvertedImage.init utcnow id
             (ConvertedImageCreate.conversion_job_id r)
             (ConvertedImageCreate.filename r)
             (ConvertedImageCreate.file_path r)
             (ConvertedImageCreate.file_size r)
             (ConvertedImageCreate.mime_type r)
             (ConvertedImageCreate.format r)
             (ConvertedImageCreate.width r)
             (ConvertedImageCreate.height r)
             (ConvertedImageCreate.quality_used r)
             created None last (ConvertedImageCreate.expires_at r) deleted in
  ConvertedImage.width c = w /\
  ConvertedImage.height c = h /\
  ConvertedImage.quality_used c = q /\
  0 <= ConvertedImage.width c /\
  0 <= ConvertedImage.height c /\
  (forall q', ConvertedImage.quality_used c = Some q' -> 1 <= q' <= 100) /\
  ConvertedImage.download_count c = 0.
Proof.
  intros [-> H]%ConvertedImageCreate_init_ok c.
  apply failures_nil in H. unfold ConvertedImageCreate.checks in H.
  repeat (apply Forall_cons in H as [? H]). simpl in *.
  split_and!; try done.
  - by apply (int_ok_ge (set_ge 0 Field)).
  - by apply (int_ok_ge (set_ge 0 Field)).
  - intros q' ->. simpl in *. split.
    + by apply (int_ok_ge (set_le 100 (set_ge 1 Field))).
    + by apply (int_ok_le (set_le 100 (set_ge 1 Field))).
Qed.

Lemma ConvertedImage_bounds_from_create_witness :
  let c := ConvertedImage.init Sample.t2 (Some 2) 2 "photo-960.webp"
             "/converted/photo-960.webp" 48213 "image/webp" WEBP 960 540
             (Some 85) None None None None None in
  ConvertedImageCreate.init 2 "photo-960.webp" "/converted/photo-960.webp"
    48213 "image/webp" WEBP 960 540 (Some 85) None
  = Ok (ConvertedImageCreate.mk 2 "photo-960.webp" "/converted/photo-960.webp"
          48213 "image/webp" WEBP 960 540 (Some 85) None) /\
  (ConvertedImage.width c = 960 /\
   ConvertedImage.height c = 540 /\
   ConvertedImage.quality_used c = Some 85 /\
   0 <= ConvertedImage.width c /\
   0 <= ConvertedImage.height c /\
   (forall q', ConvertedImage.quality_used c = Some q' -> 1 <= q' <= 100) /\
   ConvertedImage.download_count c = 0).
Proof.
  intros c. split; [reflexivity|].
  apply (ConvertedImage_bounds_from_create 2 "photo-960.webp"
           "/converted/photo-960.webp" 48213 "image/webp" WEBP 960 540
           (Some 85) None
           (ConvertedImageCreate.mk 2 "photo-960.webp"
              "/converted/photo-960.webp" 48213 "image/webp" WEBP 960 540
              (Some 85) None)
           Sample.t2 (Some 2) None None None).
  reflexivity.
Defined.

(** A [ConvertedImageCreate] with a value out of range is not constructed. *)
Example ConvertedImageCreate_rejects_negative :
  ConvertedImageCreate.init 2 "bad.png" "/converted/bad.png" 10 "image/png"
    PNG (-1) (-1) (Some 0) None
  = Err (ValidationError ["width"; "height"; "quality_used"]).
Proof. reflexivity. Qed.

(** A record that the store creates from a valid [ConvertedImageCreate]
    meets the constraints of [ConvertedImage]; its download count is 0. *)
Lemma create_converted_image_checks db utcnow (r : ConvertedImageCreate.t) :
  failures (ConvertedImageCreate.checks r) = [] ->
  failures (ConvertedImage.checks (Engine.create_converted_image db utcnow r).2) = [] /\
  ConvertedImage.download_count (Engine.create_converted_image db utcnow r).2 = 0.
Proof.
  rewrite !failures_nil. unfold ConvertedImageCreate.checks. intros H.
  repeat (apply Forall_cons in H as [? H]). simpl in *. split; [|done].
  repeat first [apply Forall_nil_2 | apply Forall_cons_2]; done.
Qed.

(** ** Serialization of the response schemas *)


Lemma isoformat_entry_spec data field :
  (forall v, data !! field = Some v -> datetime_or_none v) ->
  exists out, isoformat_entry data field = Ok out /\
    forall k, out !! k =
      if decide (k = field) then iso_value <$> data !! k else data !! k.
Proof.
  intros Hty. unfold isoformat_entry.
  destruct (data !! field) as [v|] eqn:Hv.
  - destruct (Hty v eq_refl) as [-> | [d ->]]; simpl.
    + exists data. split; [done|]. intros k.
      case_decide; [subst; by rewrite Hv | done].
    + eexists. split; [done|]. intros k.
      case_decide; subst.
      * by rewrite lookup_insert_eq, Hv.
      * by rewrite lookup_insert_ne.
  - exists data. split; [done|]. intros k.
    case_decide; [subst; by rewrite Hv | done].
Qed.

Lemma isoformat_entries_spec fields data :
  NoDup fields ->
  (forall f v, f ∈ fields -> data !! f = Some v -> datetime_or_none v) ->
  exists out, isoformat_entries fields data = Ok out /\
    forall k, out !! k =
      if decide (k ∈ fields) then iso_value <$> data !! k else data !! k.
Proof.
  revert data. induction fields as [|f rest IH]; intros data Hnd Hty.
  - exists data. split; [done|]. intros k.
    case_decide as Hk; [by apply elem_of_nil in Hk | done].
  - apply NoDup_cons in Hnd as [Hf Hnd].
    destruct (isoformat_entry_spec data f) as (d1 & Hd1 & H1).
    { intros v. apply Hty. by left. }
    destruct (IH d1 Hnd) as (out & Hrest & Hout).
    { intros f' v Hf'. rewrite H1.
      case_decide; [by subst|]. apply Hty. by right. }
    exists out. split; [simpl; by rewrite Hd1|].
    intros k. rewrite Hout, H1.
    destruct (decide (k = f)) as [->|Hne].
    + rewrite decide_False by done. rewrite decide_True by (by left). done.
    + destruct (decide (k ∈ rest)) as [Hin|Hnin].
      * rewrite decide_True by (by right). done.
      * rewrite decide_False; [done|].
        intros [?|?]%elem_of_cons; done.
Qed.

Lemma serialized_intro dts base out :
  (forall k v, k ∈ dts -> base !! k = Some v -> datetime_or_none v) ->
  (forall k, out !! k =
     if decide (k ∈ dts) then iso_value <$> base !! k else base !! k) ->
  serialized dts base out.
Proof.
  intros Hty Hout. split_and!.
  - intros k d Hk Hb. by rewrite Hout, decide_True, Hb.
  - intros k Hk Hb. by rewrite Hout, decide_True, Hb.
  - intros k Hk. by rewrite Hout, decide_False.
  - intros k. rewrite Hout. case_decide; [|done].
    by rewrite fmap_is_Some.
Qed.

Lemma BaseModel_dict_elem fields kw k v :
  BaseModel_dict fields kw !! k = Some v -> (k, v) ∈ fields.
Proof.
  unfold BaseModel_dict. intros H.
  apply elem_of_list_to_map_2 in H. apply list_elem_of_In in H.
  apply List.filter_In in H as [H _]. by apply list_elem_of_In.
Qed.

(** The entries of the datetime fields are datetimes or [None]. *)
Ltac datetime_entries self :=
  intros k v Hk Hb; apply BaseModel_dict_elem in Hb;
  repeat (apply elem_of_cons in Hk as [->|Hk]);
  try (by apply elem_of_nil in Hk);
  repeat (apply elem_of_cons in Hb as [Hb|Hb]; [try discriminate; injection Hb as -> |]);
  try (by apply elem_of_nil in Hb);
  destruct self; simpl;
  repeat match goal with
         | |- context [opt_value _ ?o] => destruct o; simpl
         end;
  solve [by left | right; by eexists].

Lemma ImageMetadata_entries self kw k v :
  k ∈ ImageMetadata.datetime_fields ->
  BaseModel_dict (ImageMetadata.fields self) kw !! k = Some v ->
  datetime_or_none v.
Proof. revert k v. datetime_entries self. Qed.

Lemma ConversionJobResponse_entries self kw k v :
  k ∈ ConversionJobResponse.datetime_fields ->
  BaseModel_dict (ConversionJobResponse.fields self) kw !! k = Some v ->
  datetime_or_none v.
Proof. revert k v. datetime_entries self. Qed.

Lemma ConvertedImageResponse_entries self kw k v :
  k ∈ ConvertedImageResponse.datetime_fields ->
  BaseModel_dict (ConvertedImageResponse.fields self) kw !! k = Some v ->
  datetime_or_none v.
Proof. revert k v. datetime_entries self. Qed.


Lemma isoformat_entry_datetime data field d :
  data !! field = Some (VDatetime d) ->
  isoformat_entry data field = Ok (<[field := iso d]> data).
Proof. unfold isoformat_entry. by intros ->. Qed.

Lemma isoformat_entry_none data field :
  data !! field = Some VNone -> isoformat_entry data field = Ok data.
Proof. unfold isoformat_entry. by intros ->. Qed.

(** Evaluates the override on a dictionary whose keys are known, keeping the
    ISO strings abstract. *)
Ltac entry_lookup :=
  rewrite ?lookup_insert_ne by done; vm_compute; reflexivity.

Ltac run_entries :=
  cbn [isoformat_entries];
  repeat (first [ erewrite isoformat_entry_datetime by entry_lookup
                | rewrite isoformat_entry_none by entry_lookup ];
          cbn [mbind result_bind]);
  f_equal; unfold iso;
  repeat match goal with
         | |- context [Datetime.isoformat ?d] =>
             generalize (Datetime.isoformat d); intro
         end;
  vm_compute; reflexivity.

(** C10. For each of the three response schemas, [dict] returns (and does
    not raise), and its result is the base dictionary in which every
    datetime field that holds a datetime holds its [isoformat()] string
    instead, every datetime field that holds [None] still holds [None], and
    every other entry is unchanged; this holds whatever entries the keyword
    arguments select.  Without keyword arguments the result is the dictionary
    of all the fields written out below. *)
Theorem dict_serializes_datetimes :
  (forall (self : ImageMetadata.t) kw,
     exists out, ImageMetadata.dict self kw = Ok out /\
       serialized ImageMetadata.datetime_fields
         (BaseModel_dict (ImageMetadata.fields self) kw) out) /\
  (forall (self : ConversionJobResponse.t) kw,
     exists out, ConversionJobResponse.dict self kw = Ok out /\
       serialized ConversionJobResponse.datetime_fields
         (BaseModel_dict (ConversionJobResponse.fields self) kw) out) /\
  (forall (self : ConvertedImageResponse.t) kw,
     exists out, ConvertedImageResponse.dict self kw = Ok out /\
       serialized ConvertedImageResponse.datetime_fields
         (BaseModel_dict (ConvertedImageResponse.fields self) kw) out) /\
  (forall self : ImageMetadata.t,
     ImageMetadata.dict self no_kwargs = Ok (list_to_map
       [ ("id", VInt (ImageMetadata.id self));
         ("filename", VStr (ImageMetadata.filename self));
         ("file_size", VInt (ImageMetadata.file_size self));
         ("format", VImageFormat (ImageMetadata.format self));
         ("width", opt_value VInt (ImageMetadata.width self));
         ("height", opt_value VInt (ImageMetadata.height self));
         ("upload_date", iso (ImageMetadata.upload_date self));
         ("mime_type", VStr (ImageMetadata.mime_type self)) ])) /\
  (forall self : ConversionJobResponse.t,
     ConversionJobResponse.dict self no_kwargs = Ok (list_to_map
       [ ("id", VInt (ConversionJobResponse.id self));
         ("source_image_id", VInt (ConversionJobResponse.source_image_id self));
         ("target_format", VImageFormat (ConversionJobResponse.target_format self));
         ("status", VConversionStatus (ConversionJobResponse.status self));
         ("quality", opt_value VInt (ConversionJobResponse.quality self));
         ("width", opt_value VInt (ConversionJobResponse.width self));
         ("height", opt_value VInt (ConversionJobResponse.height self));
         ("maintain_aspect_ratio",
            VBool (ConversionJobResponse.maintain_aspect_ratio self));
         ("created_at", iso (ConversionJobResponse.created_at self));
         ("started_at", opt_value iso (ConversionJobResponse.started_at self));
         ("completed_at", opt_value iso (ConversionJobResponse.completed_at self));
         ("error_message", opt_value VStr (ConversionJobResponse.error_message self));
         ("processing_time_seconds",
            opt_value VDecimal (ConversionJobResponse.processing_time_seconds self)) ])) /\
  (forall self : ConvertedImageResponse.t,
     ConvertedImageResponse.dict self no_kwargs = Ok (list_to_map
       [ ("id", VInt (ConvertedImageResponse.id self));
         ("filename", VStr (ConvertedImageResponse.filename self));
         ("file_size", VInt (ConvertedImageResponse.file_size self));
         ("format", VImageFormat (ConvertedImageResponse.format self));
         ("width", VInt (ConvertedImageResponse.width self));
         ("height", VInt (ConvertedImageResponse.height self));
         ("quality_used", opt_value VInt (ConvertedImageResponse.quality_used self));
         ("created_at", iso (ConvertedImageResponse.created_at self));
         ("download_count", VInt (ConvertedImageResponse.download_count self));
         ("last_downloaded_at",
            opt_value iso (ConvertedImageResponse.last_downloaded_at self));
         ("expires_at", opt_value iso (ConvertedImageResponse.expires_at self)) ])).
Proof.
  split_and!.
  - intros self kw. unfold ImageMetadata.dict.
    destruct (isoformat_entry_spec
                (BaseModel_dict (ImageMetadata.fields self) kw) "upload_date")
      as (out & Hout & Hk).
    { intros v. apply ImageMetadata_entries. by left. }
    exists out. split; [done|].
    apply serialized_intro; [apply ImageMetadata_entries|].
    intros k. rewrite Hk. unfold ImageMetadata.datetime_fields.
    destruct (decide (k = "upload_date")) as [->|Hne].
    + by rewrite decide_True by (by left).
    + rewrite decide_False; [done|]. by intros ->%list_elem_of_singleton.
  - intros self kw. unfold ConversionJobResponse.dict.
    destruct (isoformat_entries_spec ConversionJobResponse.datetime_fields
                (BaseModel_dict (ConversionJobResponse.fields self) kw))
      as (out & Hout & Hk).
    { compute_done. }
    { intros f v. apply ConversionJobResponse_entries. }
    exists out. split; [done|].
    apply serialized_intro; [apply ConversionJobResponse_entries | done].
  - intros self kw. unfold ConvertedImageResponse.dict.
    destruct (isoformat_entries_spec ConvertedImageResponse.datetime_fields
                (BaseModel_dict (ConvertedImageResponse.fields self) kw))
      as (out & Hout & Hk).
    { compute_done. }
    { intros f v. apply ConvertedImageResponse_entries. }
    exists out. split; [done|].
    apply serialized_intro; [apply ConvertedImageResponse_entries | done].
  - intros []. unfold ImageMetadata.dict.
    erewrite isoformat_entry_datetime by entry_lookup. run_entries.
  - intros [? ? ? ? ? ? ? ? ? [?|] [?|] ? ?];
      unfold ConversionJobResponse.dict, ConversionJobResponse.datetime_fields;
      run_entries.
  - intros [? ? ? ? ? ? ? ? ? [?|] [?|]];
      unfold ConvertedImageResponse.dict, ConvertedImageResponse.datetime_fields;
      run_entries.
Qed.

(** ** Keys and references between the tables *)

Section Keys.

Context {A : Type} (key : A -> option Z).

Lemma key_unique (l : list A) x y k :
  NoDup (omap id (key <$> l)) ->
  x ∈ l -> y ∈ l -> key x = Some k -> key y = Some k -> x = y.
Proof.
  induction l as [|a l IH]; intros Hnd Hx Hy Hkx Hky.
  - by apply elem_of_nil in Hx.
  - assert (Htail : NoDup (omap id (key <$> l))).
    { simpl in Hnd. destruct (key a); simpl in Hnd; [|done].
      by apply NoDup_cons in Hnd as [_ ?]. }
    assert (Hfresh : forall z, z ∈ l -> key z = Some k -> key a = Some k -> False).
    { intros z Hz Hkz Hka. simpl in Hnd. rewrite Hka in Hnd. simpl in Hnd.
      apply NoDup_cons in Hnd as [Hnin _]. apply Hnin.
      apply list_elem_of_omap. exists (Some k). split; [|done].
      apply list_elem_of_fmap. by exists z. }
    apply elem_of_cons in Hx as [->|Hx]; apply elem_of_cons in Hy as [->|Hy].
    + done.
    + by destruct (Hfresh y).
    + by destruct (Hfresh x).
    + by apply IH.
Qed.

Lemma find_key (l : list A) x k :
  NoDup (omap id (key <$> l)) ->
  x ∈ l -> key x = Some k ->
  List.find (fun y => bool_decide (key y = Some k)) l = Some x.
Proof.
  intros Hnd Hx Hk.
  destruct (List.find _ l) as [y|] eqn:Hfind.
  - apply List.find_some in Hfind as [Hy Hyk].
    apply bool_decide_eq_true in Hyk. apply list_elem_of_In in Hy.
    f_equal. by eapply key_unique.
  - apply list_elem_of_In in Hx.
    pose proof (List.find_none _ _ Hfind _ Hx) as Hf. simpl in Hf.
    by rewrite bool_decide_eq_false in Hf.
Qed.

Lemma key_referenced (l : list A) k :
  k ∈ omap key l <-> exists x, x ∈ l /\ key x = Some k.
Proof. apply list_elem_of_omap. Qed.

End Keys.

Lemma omap_id_some {A} (f : A -> Z) (l : list A) :
  omap id (Some ∘ f <$> l) = f <$> l.
Proof. induction l as [|a l IH]; [done|]. simpl. f_equal. exact IH. Qed.

(** The constraints [db_wf] gives for each key column. *)

Lemma db_wf_job_ids db :
  db_wf db -> NoDup (omap id (ConversionJob.id <$> conversion_jobs db)).
Proof. intros (_&_&_&_&(_&H&_)&_). by apply H. Qed.

Lemma db_wf_image_ids db :
  db_wf db -> NoDup (omap id (UploadedImage.id <$> uploaded_images db)).
Proof. intros (_&_&(_&H&_)&_). by apply H. Qed.

Lemma db_wf_user_ids db :
  db_wf db -> NoDup (omap id (User.id <$> users db)).
Proof. intros ((_&H&_)&_). by apply H. Qed.

Lemma db_wf_converted_job_ids db :
  db_wf db ->
  NoDup (omap id (Some ∘ ConvertedImage.conversion_job_id <$> converted_images db)).
Proof. intros (_&_&_&_&_&_&_&_&(_&H&_)). by apply H. Qed.

Lemma db_wf_source_image db j :
  db_wf db -> j ∈ conversion_jobs db ->
  exists i, i ∈ uploaded_images db /\
            UploadedImage.id i = Some (ConversionJob.source_image_id j).
Proof.
  intros (_&_&_&_&_&_&(_&_&H)&_) Hj.
  unfold foreign_key_ok in H. simpl in H.
  rewrite omap_id_some in H. rewrite Forall_forall in H.
  apply (key_referenced UploadedImage.id). apply H.
  apply list_elem_of_fmap. by exists j.
Qed.

Lemma db_wf_job_user db j u :
  db_wf db -> j ∈ conversion_jobs db -> ConversionJob.user_id j = Some u ->
  exists x, x ∈ users db /\ User.id x = Some u.
Proof.
  intros (_&_&_&_&_&(_&_&H)&_) Hj Hu.
  unfold foreign_key_ok in H. simpl in H. rewrite Forall_forall in H.
  apply (key_referenced User.id). apply H.
  apply list_elem_of_omap. exists (Some u). split; [|done].
  apply list_elem_of_fmap. by exists j.
Qed.

Lemma db_wf_conversion_job db c :
  db_wf db -> c ∈ converted_images db ->
  exists j, j ∈ conversion_jobs db /\
            ConversionJob.id j = Some (ConvertedImage.conversion_job_id c).
Proof.
  intros (_&_&_&_&_&_&_&_&(_&_&H)) Hc.
  unfold foreign_key_ok in H. simpl in H.
  rewrite omap_id_some in H. rewrite Forall_forall in H.
  apply (key_referenced ConversionJob.id). apply H.
  apply list_elem_of_fmap. by exists c.
Qed.


Lemma Sample_db_ok : db_wf Sample.db.
Proof. compute_done. Qed.

(** C5. The column [conversion_job_id] of a converted image is a foreign key
    to the jobs that is not nullable and unique.  So in a store that meets
    the declared constraints every converted image belongs to exactly one
    job (the one [conversion_job] resolves to), and no job has two converted
    images. *)
Theorem ConvertedImage_job_one_to_one (db : Db) :
  db_wf db ->
  let col := column_of ConvertedImage.f_conversion_job_id in
  col_nullable col = false /\
  col_unique col = true /\
  col_foreign_key col = Some "conversion_jobs.id" /\
  (forall c, c ∈ converted_images db ->
     exists j, j ∈ conversion_jobs db /\
       ConversionJob.id j = Some (ConvertedImage.conversion_job_id c) /\
       conversion_job db c = Some j /\
       forall j', j' ∈ conversion_jobs db ->
         ConversionJob.id j' = Some (ConvertedImage.conversion_job_id c) ->
         j' = j) /\
  (forall j c1 c2,
     c1 ∈ converted_images db -> c2 ∈ converted_images db ->
     ConversionJob.id j = Some (ConvertedImage.conversion_job_id c1) ->
     ConversionJob.id j = Some (ConvertedImage.conversion_job_id c2) ->
     c1 = c2).
Proof.
  intros Hwf col. split_and!; try done.
  - intros c Hc.
    destruct (db_wf_conversion_job db c Hwf Hc) as (j & Hj & Hid).
    pose proof (db_wf_job_ids db Hwf) as Hnd.
    exists j. split_and!; try done.
    + unfold conversion_job. by apply (find_key ConversionJob.id).
    + intros j' Hj' Hid'. by eapply (key_unique ConversionJob.id).
  - intros j c1 c2 H1 H2 E1 E2.
    pose proof (db_wf_converted_job_ids db Hwf) as Hnd.
    eapply (key_unique (Some ∘ ConvertedImage.conversion_job_id)); try done.
    simpl. congruence.
Qed.

Lemma ConvertedImage_job_one_to_one_witness :
  db_wf Sample.db /\
  conversion_job Sample.db Sample.converted1 = Some Sample.job1 /\
  (forall c, c ∈ converted_images Sample.db ->
     exists j, j ∈ conversion_jobs Sample.db /\
       ConversionJob.id j = Some (ConvertedImage.conversion_job_id c) /\
       conversion_job Sample.db c = Some j /\
       forall j', j' ∈ conversion_jobs Sample.db ->
         ConversionJob.id j' = Some (ConvertedImage.conversion_job_id c) ->
         j' = j).
Proof.
  split; [compute_done|]. split; [reflexivity|].
  apply (ConvertedImage_job_one_to_one Sample.db). compute_done.
Defined.

(** C9. The column [source_image_id] of a job is a foreign key to the
    uploaded images that is not nullable, and [user_id] is a nullable
    foreign key to the users.  So in a store that meets the declared
    constraints every job references exactly one uploaded image (the one
    [source_image] resolves to), and a job that names a user references
    exactly one user. *)
Theorem ConversionJob_references (db : Db) :
  db_wf db ->
  let src := column_of ConversionJob.f_source_image_id in
  let usr := column_of ConversionJob.f_user_id in
  col_nullable src = false /\
  col_foreign_key src = Some "uploaded_images.id" /\
  col_nullable usr = true /\
  col_foreign_key usr = Some "users.id" /\
  (forall j, j ∈ conversion_jobs db ->
     exists i, i ∈ uploaded_images db /\
       UploadedImage.id i = Some (ConversionJob.source_image_id j) /\
       source_image db j = Some i /\
       forall i', i' ∈ uploaded_images db ->
         UploadedImage.id i' = Some (ConversionJob.source_image_id j) ->
         i' = i) /\
  (forall j u, j ∈ conversion_jobs db -> ConversionJob.user_id j = Some u ->
     exists x, x ∈ users db /\ User.id x = Some u /\
       forall x', x' ∈ users db -> User.id x' = Some u -> x' = x).
Proof.
  intros Hwf src usr. split_and!; try done.
  - intros j Hj.
    destruct (db_wf_source_image db j Hwf Hj) as (i & Hi & Hid).
    pose proof (db_wf_image_ids db Hwf) as Hnd.
    exists i. split_and!; try done.
    + unfold source_image. by apply (find_key UploadedImage.id).
    + intros i' Hi' Hid'. by eapply (key_unique UploadedImage.id).
  - intros j u Hj Hu.
    destruct (db_wf_job_user db j u Hwf Hj Hu) as (x & Hx & Hid).
    pose proof (db_wf_user_ids db Hwf) as Hnd.
    exists x. split_and!; try done.
    intros x' Hx' Hid'. by eapply (key_unique User.id).
Qed.

Lemma ConversionJob_references_witness :
  db_wf Sample.db /\
  Sample.job2 ∈ conversion_jobs Sample.db /\
  ConversionJob.user_id Sample.job2 = None /\
  source_image Sample.db Sample.job2 = Some Sample.image1 /\
  (forall j, j ∈ conversion_jobs Sample.db ->
     exists i, i ∈ uploaded_images Sample.db /\
       UploadedImage.id i = Some (ConversionJob.source_image_id j) /\
       source_image Sample.db j = Some i /\
       forall i', i' ∈ uploaded_images Sample.db ->
         UploadedImage.id i' = Some (ConversionJob.source_image_id j) ->
         i' = i).
Proof.
  split; [compute_done|].
  split; [apply list_elem_of_In; simpl; auto|].
  split; [reflexivity|]. split; [reflexivity|].
  apply (ConversionJob_references Sample.db). compute_done.
Defined.

(** ** Submitting a conversion request *)

Lemma opt_int_ok_iff f v :
  opt_int_ok f v = true <-> forall z, v = Some z -> int_ok f z = true.
Proof.
  destruct v as [z|]; simpl.
  - split; [by intros ? ? [= <-] | by intros H; apply H].
  - split; [by intros _ ? [=] | done].
Qed.

Lemma quality_ok_iff v :
  opt_int_ok (set_le 100 (set_ge 1 Field)) v = true <->
  forall q, v = Some q -> 1 <= q <= 100.
Proof.
  rewrite opt_int_ok_iff. apply forall_proper. intros q.
  rewrite int_ok_iff. simpl. split.
  - intros H Hq. destruct (H Hq) as [Hge Hle].
    split; [by apply Hge | by apply Hle].
  - intros H Hq. destruct (H Hq). split; by intros ? [= <-].
Qed.

Lemma dimension_ok_iff v :
  opt_int_ok (set_ge 1 Field) v = true <-> forall n, v = Some n -> 1 <= n.
Proof.
  rewrite opt_int_ok_iff. apply forall_proper. intros n.
  rewrite int_ok_iff. simpl. split.
  - intros H Hn. destruct (H Hn) as [Hge _]. by apply Hge.
  - intros H Hn. split; [intros ? [= <-]; by apply H | by intros ? [=]].
Qed.


Lemma ConversionRequest_init_iff p :
  (exists r, ConversionRequest.init p = Ok r) <-> payload_valid p.
Proof.
  unfold payload_valid.
  rewrite <- ImageFormat_accepted, <- quality_ok_iff, <- !dimension_ok_iff.
  split.
  - intros [r Hr]. apply ConversionRequest_init_ok in Hr as (Hf&_&_&_&_&_&Hc).
    apply failures_nil in Hc. unfold ConversionRequest.checks in Hc.
    repeat (apply Forall_cons in Hc as [? Hc]). simpl in *.
    split_and!; done.
  - intros ([f Hf] & Hq & Hw & Hh).
    unfold ConversionRequest.init.
    assert (failures (ConversionRequest.checks p) = []) as ->.
    { apply failures_nil. unfold ConversionRequest.checks.
      repeat first [apply Forall_nil_2 | apply Forall_cons_2]; simpl; try done.
      apply bool_decide_eq_true. by rewrite Hf. }
    rewrite Hf. by eexists.
Qed.

Lemma ConversionRequest_init_error p e :
  ConversionRequest.init p = Err e -> exists fs, e = ValidationError fs.
Proof.
  unfold ConversionRequest.init.
  destruct (failures (ConversionRequest.checks p));
    destruct (ImageFormat_of_value (ConversionRequest.p_target_format p));
    intros [= <-]; by eexists.
Qed.

Lemma get_image_spec db k i :
  db_wf db -> i ∈ uploaded_images db -> UploadedImage.id i = Some k ->
  Engine.get_image db k = Some i.
Proof.
  intros Hwf Hi Hk. unfold Engine.get_image.
  apply (find_key UploadedImage.id); [by apply db_wf_image_ids | done..].
Qed.

Lemma get_image_elem db k i :
  Engine.get_image db k = Some i ->
  i ∈ uploaded_images db /\ UploadedImage.id i = Some k.
Proof.
  unfold Engine.get_image. intros H. apply List.find_some in H as [Hi Hk].
  apply bool_decide_eq_true in Hk. by apply list_elem_of_In in Hi.
Qed.

Lemma submit_ok db utcnow p req i :
  ConversionRequest.init p = Ok req ->
  Engine.get_image db (ConversionRequest.source_image_id req) = Some i ->
  UploadedImage.is_deleted i = false ->
  Engine.submit db utcnow p
    = (let '(db', j) := Engine.create_job db utcnow req in (db', Ok j)).
Proof. unfold Engine.submit. by intros -> -> ->. Qed.

(** C2. For a payload that makes a valid conversion request and names an
    uploaded image that is in the store and not deleted, submit returns a
    job, adds it to the store, and the job is PENDING with neither a start
    nor a completion time. *)
Theorem submit_creates_pending_job db utcnow p req i :
  db_wf db ->
  ConversionRequest.init p = Ok req ->
  i ∈ uploaded_images db ->
  UploadedImage.id i = Some (ConversionRequest.source_image_id req) ->
  UploadedImage.is_deleted i = false ->
  exists j,
    Engine.submit db utcnow p
      = (Engine.with_conversion_jobs db (conversion_jobs db ++ [j]), Ok j) /\
    ConversionJob.status j = PENDING /\
    ConversionJob.started_at j = None /\
    ConversionJob.completed_at j = None /\
    ConversionJob.source_image_id j = ConversionRequest.source_image_id req /\
    ConversionJob.target_format j = ConversionRequest.target_format req /\
    ConversionJob.created_at j = utcnow.
Proof.
  intros Hwf Hreq Hi Hid Hdel.
  pose proof (get_image_spec db _ i Hwf Hi Hid) as Hget.
  rewrite (submit_ok db utcnow p req i Hreq Hget Hdel).
  unfold Engine.create_job. eexists. split; [reflexivity|]. by simpl.
Qed.

Lemma submit_creates_pending_job_witness :
  let p := ConversionRequest.mk_payload 1 "webp" (Some 1) (Some 85) (Some 960)
             None None in
  exists j,
    Engine.submit Sample.db Sample.t2 p
      = (Engine.with_conversion_jobs Sample.db
           (conversion_jobs Sample.db ++ [j]), Ok j) /\
    ConversionJob.id j = Some 3 /\
    ConversionJob.status j = PENDING /\
    ConversionJob.started_at j = None /\
    ConversionJob.completed_at j = None.
Proof.
  intros p.
  destruct (submit_creates_pending_job Sample.db Sample.t2 p
              (ConversionRequest.mk 1 WEBP (Some 1) (Some 85) (Some 960) None true)
              Sample.image1) as (j & Hj & Hs & Hst & Hc & _).
  - compute_done.
  - reflexivity.
  - apply list_elem_of_In; simpl; auto.
  - reflexivity.
  - reflexivity.
  - exists j. split; [exact Hj|]. split; [|done].
    vm_compute in Hj. by injection Hj as <-.
Defined.

(** C3. Submit accepts a payload exactly when its source image is in the
    store and not deleted, its target format is one of the seven format
    values, its quality (when given) is in [1,100] and its width and height
    (when given) are at least 1.  In every other case it fails with
    [ValidationError] and the store is the one it was called with. *)
Theorem submit_accepts_iff db utcnow p :
  db_wf db ->
  ((exists db' j, Engine.submit db utcnow p = (db', Ok j)) <->
   (exists i, i ∈ uploaded_images db /\
      UploadedImage.id i = Some (ConversionRequest.p_source_image_id p) /\
      UploadedImage.is_deleted i = false) /\
   ConversionRequest.p_target_format p
     ∈ ["jpeg"; "jpg"; "png"; "webp"; "bmp"; "tiff"; "gif"] /\
   (forall q, ConversionRequest.p_quality p = Some q -> 1 <= q <= 100) /\
   (forall w, ConversionRequest.p_width p = Some w -> 1 <= w) /\
   (forall h, ConversionRequest.p_height p = Some h -> 1 <= h)) /\
  ((exists db' j, Engine.submit db utcnow p = (db', Ok j)) \/
   (exists fs, Engine.submit db utcnow p = (db, Err (ValidationError fs)))).
Proof.
  intros Hwf.
  change (ConversionRequest.p_target_format p
            ∈ ["jpeg"; "jpg"; "png"; "webp"; "bmp"; "tiff"; "gif"] /\
          (forall q, ConversionRequest.p_quality p = Some q -> 1 <= q <= 100) /\
          (forall w, ConversionRequest.p_width p = Some w -> 1 <= w) /\
          (forall h, ConversionRequest.p_height p = Some h -> 1 <= h))
    with (payload_valid p).
  rewrite <- ConversionRequest_init_iff.
  unfold Engine.submit.
  destruct (ConversionRequest.init p) as [req|e] eqn:Hreq.
  - pose proof (ConversionRequest_init_ok p req Hreq) as (_&Hsrc&_).
    rewrite Hsrc.
    destruct (Engine.get_image db (ConversionRequest.p_source_image_id p))
      as [i|] eqn:Hget.
    + apply get_image_elem in Hget as Hi. destruct Hi as [Hi Hid].
      destruct (UploadedImage.is_deleted i) eqn:Hdel.
      * split; [|right; by eexists].
        split; [by intros (?&?&[=]) |].
        intros [(i' & Hi' & Hid' & Hdel') _].
        pose proof (get_image_spec db _ i' Hwf Hi' Hid') as Hget'.
        congruence.
      * split; [|left; simpl; by eexists _, _].
        split; [|simpl; by eexists _, _].
        intros _. split; [by exists i | by exists req].
    + split; [|right; by eexists].
      split; [by intros (?&?&[=]) |].
      intros [(i' & Hi' & Hid' & Hdel') _].
      pose proof (get_image_spec db _ i' Hwf Hi' Hid') as Hget'.
      congruence.
  - destruct (ConversionRequest_init_error p e Hreq) as [fs ->].
    split; [|right; by eexists].
    split; [by intros (?&?&[=]) | by intros [_ [? [=]]]].
Qed.

Lemma submit_accepts_iff_witness :
  let p := ConversionRequest.mk_payload 2 "png" None None None None None in
  db_wf Sample.db /\
  ((exists db' j, Engine.submit Sample.db Sample.t2 p = (db', Ok j)) \/
   (exists fs, Engine.submit Sample.db Sample.t2 p
                 = (Sample.db, Err (ValidationError fs)))).
Proof.
  intros p. split; [compute_done|].
  apply (submit_accepts_iff Sample.db Sample.t2 p). compute_done.
Defined.

Example submit_deleted_source :
  Engine.submit Sample.db Sample.t2
    (ConversionRequest.mk_payload 2 "png" None None None None None)
  = (Sample.db, Err (ValidationError ["source_image_id"])).
Proof. reflexivity. Qed.

Example submit_bad_fields :
  Engine.submit Sample.db Sample.t2
    (ConversionRequest.mk_payload 1 "JPEG" None (Some 0) (Some 0) (Some 101) None)
  = (Sample.db, Err (ValidationError ["target_format"; "quality"; "width"])).
Proof. reflexivity. Qed.

(** ** The lifecycle of a job *)


Lemma db_wf_job_keys db : db_wf db -> job_keys_ok db.
Proof. intros (_&_&_&_&H1&_&_&_&H2). by split. Qed.

Lemma job_keys_ok_iff db :
  job_keys_ok db <->
  Forall is_Some (ConversionJob.id <$> conversion_jobs db) /\
  NoDup (omap id (ConversionJob.id <$> conversion_jobs db)) /\
  NoDup (ConvertedImage.conversion_job_id <$> converted_images db) /\
  (forall c, c ∈ converted_images db ->
     exists j, j ∈ conversion_jobs db /\
       ConversionJob.id j = Some (ConvertedImage.conversion_job_id c)).
Proof.
  unfold job_keys_ok, column_ok, not_null_ok, unique_ok, foreign_key_ok.
  simpl. rewrite omap_id_some.
  setoid_rewrite (key_referenced ConversionJob.id).
  split.
  - intros ((Hnn & Hnd & _) & (_ & Hu & Hfk)).
    split_and!; [by apply Hnn | by apply Hnd | by apply Hu |].
    intros c Hc. rewrite Forall_forall in Hfk. apply Hfk.
    apply list_elem_of_fmap. by exists c.
  - intros (Hnn & Hnd & Hu & Hfk). split_and!; try done.
    + intros _. apply Forall_fmap, Forall_forall. intros c _. by eexists.
    + apply Forall_forall.
      intros k (c & -> & Hc)%list_elem_of_fmap. by apply Hfk.
Qed.


Lemma find_fmap {A} (P : A -> bool) (f : A -> A) (l : list A) :
  (forall x, P (f x) = P x) ->
  List.find P (f <$> l) = f <$> List.find P l.
Proof.
  intros HP. induction l as [|a l IH]; [done|].
  simpl. rewrite HP. by destruct (P a).
Qed.





Lemma updated_id k guard u j :
  ConversionJob.id (updated k guard u j) = ConversionJob.id j.
Proof. unfold updated. by destruct (Engine.job_matches k guard j). Qed.

Lemma update_job_ok db k guard u db' :
  Engine.update_job db k guard u = Ok db' ->
  db' = Engine.with_conversion_jobs db (updated k guard u <$> conversion_jobs db) /\
  exists j, j ∈ conversion_jobs db /\ Engine.job_matches k guard j = true.
Proof.
  unfold Engine.update_job.
  destruct (existsb _ _) eqn:E; [|done]. intros [= <-]. split; [done|].
  apply existsb_exists in E as (j & Hj & Hm). exists j.
  by apply list_elem_of_In in Hj.
Qed.

Lemma job_matches_true k guard j :
  Engine.job_matches k guard j = true <->
  ConversionJob.id j = Some k /\ guard (ConversionJob.status j) = true.
Proof.
  unfold Engine.job_matches. by rewrite andb_true_iff, bool_decide_eq_true.
Qed.
















Example Scenario_final_statuses :
  (fun j => (ConversionJob.id j, ConversionJob.status j,
             ConversionJob.processing_time_seconds j))
    <$> conversion_jobs Scenario.final
  = [ (Some 1, COMPLETED, Some (Decimal.mk false 325 (-2)));
      (Some 2, FAILED, Some (Decimal.mk false 1500000 (-6)));
      (Some 3, COMPLETED, Some (Decimal.mk false 2500000 (-6))) ].
Proof. reflexivity. Qed.

Example Scenario_final_converted :
  ConvertedImage.conversion_job_id <$> converted_images Scenario.final = [1; 3].
Proof. reflexivity. Qed.


(** An update that fails a PENDING job and does not set [started_at] breaks
    the invariant, whatever else it sets. *)
Lemma failing_pending_breaks_invariant db u j :
  ConversionJob.status j = PENDING ->
  job_invariant db j ->
  ConversionJobUpdate.status u = Some FAILED ->
  ConversionJobUpdate.started_at u = None ->
  ~ job_invariant db (Engine.apply_update u j).
Proof.
  intros Hst (Hs & _ & _) Hu Hstart (Hs' & _ & _). simpl in Hs'.
  rewrite Hu, Hstart in Hs'. simpl in Hs'. rewrite Hst in Hs. simpl in Hs.
  destruct Hs as [Hs _]. destruct Hs' as [_ Hs'].
  by specialize (Hs (Hs' eq_refl)).
Qed.

(** The transition table gives [cancel] no effect on the timestamps, so
    cancelling a PENDING job leaves a FAILED job that never started. *)
Lemma cancel_breaks_invariant :
  exists db', Engine.cancel Sample.db 2 = Ok db' /\
    lifecycle_invariant Sample.db /\
    ~ lifecycle_invariant db'.
Proof.
  eexists. split; [reflexivity|]. split; [compute_done|]. compute_done.
Qed.

(** ** Workers racing on one job *)


Lemma claim_claimable db now k :
  claimable db k = true -> exists db', Engine.claim db now k = Ok db'.
Proof.
  unfold claimable, Engine.claim, Engine.update_job. intros ->. by eexists.
Qed.

Lemma claim_not_claimable db now k :
  claimable db k = false -> Engine.claim db now k = Err Conflict.
Proof. unfold claimable, Engine.claim, Engine.update_job. by intros ->. Qed.

Lemma claim_consumes db now k db' :
  Engine.claim db now k = Ok db' -> claimable db' k = false.
Proof.
  unfold Engine.claim. intros [-> _]%update_job_ok.
  unfold claimable. simpl.
  destruct (existsb _ _) eqn:E; [|done].
  apply existsb_exists in E as (j' & Hj' & Hm).
  apply list_elem_of_In, list_elem_of_fmap in Hj' as (j & -> & _).
  unfold updated in Hm.
  destruct (Engine.job_matches k Engine.is_pending j) eqn:Hj; [|congruence].
  apply job_matches_true in Hm as [_ Hm]. done.
Qed.

Lemma claim_job db now k db' j :
  job_keys_ok db ->
  j ∈ conversion_jobs db -> ConversionJob.id j = Some k ->
  Engine.claim db now k = Ok db' ->
  exists j', Engine.get_job db' k = Some j' /\
    ConversionJob.status j' = PROCESSING /\
    ConversionJob.started_at j' = Some now /\
    ConversionJob.source_image_id j' = ConversionJob.source_image_id j /\
    ConversionJob.created_at j' = ConversionJob.created_at j.
Proof.
  intros Hkeys Hj Hid Hclaim.
  apply job_keys_ok_iff in Hkeys as (_ & Hnd & _ & _).
  unfold Engine.claim in Hclaim.
  apply update_job_ok in Hclaim as [-> (j1 & Hj1 & Hm)].
  apply job_matches_true in Hm as Hm'. destruct Hm' as [Hid1 _].
  assert (j1 = j) as -> by by eapply (key_unique ConversionJob.id).
  unfold Engine.get_job. simpl.
  rewrite find_fmap by (intros x; by rewrite updated_id).
  rewrite (find_key ConversionJob.id _ j k Hnd Hj Hid). simpl.
  eexists. split; [reflexivity|]. unfold updated. by rewrite Hm.
Qed.

Section Counting.

Import Workers.

Lemma count_cons p w ws :
  count p (w :: ws) = (Nat.b2n (p w) + count p ws)%nat.
Proof. unfold count. simpl. by destruct (p w). Qed.

Lemma count_insert p (ws : list worker) i w w' :
  ws !! i = Some w ->
  (count p (<[i := w']> ws) + Nat.b2n (p w) = count p ws + Nat.b2n (p w'))%nat.
Proof.
  revert i. induction ws as [|a ws IH]; intros i Hi; [done|].
  destruct i as [|i]; simpl in *.
  - injection Hi as ->. rewrite !count_cons. lia.
  - rewrite !count_cons. specialize (IH i Hi). lia.
Qed.

Lemma count_total (ws : list worker) :
  (count is_waiting ws + count is_claimed ws + count is_skipped ws
   = length ws)%nat.
Proof.
  induction ws as [|w ws IH]; [done|].
  rewrite !count_cons. destruct w; simpl; lia.
Qed.

Lemma count_waiting_all (nows : list datetime) :
  count is_waiting (Waiting <$> nows) = length nows /\
  count is_claimed (Waiting <$> nows) = 0%nat /\
  count is_skipped (Waiting <$> nows) = 0%nat.
Proof.
  induction nows as [|n nows (IH1 & IH2 & IH3)]; [done|].
  rewrite fmap_cons, !count_cons. simpl. by rewrite IH1, IH2, IH3.
Qed.

Lemma count_waiting_pos (ws : list worker) :
  (0 < count is_waiting ws)%nat ->
  exists i now, ws !! i = Some (Waiting now).
Proof.
  induction ws as [|w ws IH]; [unfold count; simpl; lia|].
  rewrite count_cons. destruct w as [now| |]; simpl.
  - intros _. by exists 0%nat, now.
  - intros H. destruct (IH H) as (i & now & Hi). by exists (S i), now.
  - intros H. destruct (IH H) as (i & now & Hi). by exists (S i), now.
Qed.

End Counting.

Section Race.

Import Workers.

Variable db0 : Db.
Variable k : Z.
Variable nows : list datetime.


Lemma elem_of_insert_inv (ws : list worker) i w x :
  x ∈ <[i := w]> ws -> x = w \/ x ∈ ws.
Proof.
  intros (j & Hj)%list_elem_of_lookup.
  apply list_lookup_insert_Some in Hj as [(_ & -> & _) | (_ & Hj)].
  - by left.
  - right. by eapply list_elem_of_lookup_2.
Qed.

Lemma race_inv_init :
  claimable db0 k = true ->
  race_inv db0 k nows {| store := db0; pool := Waiting <$> nows |}.
Proof.
  intros Hc. destruct (count_waiting_all nows) as (_ & Hcl & Hsk).
  unfold race_inv. simpl. split_and!.
  - by rewrite length_fmap.
  - intros now (n & [= ->] & Hn)%list_elem_of_fmap. done.
  - left. by split_and!.
Qed.

Lemma race_inv_step s s' :
  race_inv db0 k nows s -> step k s s' -> race_inv db0 k nows s'.
Proof.
  intros (Hlen & Hwait & Hcase) Hstep.
  destruct Hstep as [s i now Hi].
  assert (now ∈ nows) as Hnow
    by (apply Hwait; by eapply list_elem_of_lookup_2).
  unfold race_inv, attempt. simpl.
  destruct Hcase as [(Hc & Hdb & Hcl & Hsk) | (Hc & Hcl & Hwin)].
  - destruct (claim_claimable (store s) now k Hc) as [db' Hclaim].
    rewrite Hclaim. simpl. split_and!.
    + by rewrite length_insert.
    + intros n [[=] | Hn]%elem_of_insert_inv. by apply Hwait.
    + right. split_and!.
      * by eapply claim_consumes.
      * pose proof (count_insert is_claimed _ _ _ Claimed Hi) as H.
        simpl in H. lia.
      * exists now. split; [done|]. by rewrite <- Hdb.
  - rewrite (claim_not_claimable (store s) now k Hc). simpl. split_and!.
    + by rewrite length_insert.
    + intros n [[=] | Hn]%elem_of_insert_inv. by apply Hwait.
    + right. split_and!; [done | | done].
      pose proof (count_insert is_claimed _ _ _ Skipped Hi) as H.
      simpl in H. lia.
Qed.

Lemma race_inv_reachable s :
  claimable db0 k = true ->
  rtc (step k) {| store := db0; pool := Waiting <$> nows |} s ->
  race_inv db0 k nows s.
Proof.
  intros Hc. apply (rtc_ind_r (race_inv db0 k nows)).
  - by apply race_inv_init.
  - intros s1 s2 _ Hstep Hinv. by eapply race_inv_step.
Qed.

(** Every waiting worker can make its call, and each call leaves one
    waiting worker less: the workers all finish. *)
Lemma race_finishes s :
  exists s', rtc (step k) s s' /\ finished s'.
Proof.
  remember (count is_waiting (pool s)) as m eqn:Hm.
  revert s Hm. induction m as [|m IH]; intros s Hm.
  - exists s. split; [apply rtc_refl | by unfold finished].
  - destruct (count_waiting_pos (pool s)) as (i & now & Hi); [lia|].
    pose proof (step_attempt k s i now Hi) as Hstep.
    set (s1 := {| store := (attempt (store s) k now).1;
                  pool := <[i := (attempt (store s) k now).2]> (pool s) |}) in *.
    destruct (IH s1) as (s' & Hrtc & Hfin).
    + pose proof (count_insert is_waiting (pool s) i _
                    (attempt (store s) k now).2 Hi) as H.
      simpl in *. unfold attempt in *.
      destruct (Engine.claim (store s) now k); simpl in *; lia.
    + exists s'. split; [|done]. by eapply rtc_l.
Qed.

End Race.

Lemma run_schedule_steps k s schedule :
  rtc (Workers.step k) s (Workers.run_schedule k s schedule).
Proof.
  revert s. induction schedule as [|i schedule IH]; intros s; [apply rtc_refl|].
  simpl. eapply rtc_trans; [|apply IH].
  unfold Workers.run_worker.
  destruct (Workers.pool s !! i) as [[now| |]|] eqn:Hi; try apply rtc_refl.
  apply rtc_once. by constructor.
Qed.

(** C4. When one or more workers call [claim] on a PENDING job, in whatever
    order their calls reach the store, at most one of them ever holds the
    claim; once all have called, exactly one has claimed the job and every
    other one has received the conflict, and the store is the result of that
    single call, with the job PROCESSING since the time of the winner.  The
    workers always get to that point. *)
Theorem claim_exclusive db k j nows :
  job_keys_ok db ->
  j ∈ conversion_jobs db ->
  ConversionJob.id j = Some k ->
  ConversionJob.status j = PENDING ->
  nows ≠ [] ->
  let s0 := {| Workers.store := db; Workers.pool := Workers.Waiting <$> nows |} in
  (forall s, rtc (Workers.step k) s0 s ->
     (Workers.count Workers.is_claimed (Workers.pool s) <= 1)%nat /\
     (Workers.finished s ->
        Workers.count Workers.is_claimed (Workers.pool s) = 1%nat /\
        Workers.count Workers.is_skipped (Workers.pool s)
          = (length nows - 1)%nat /\
        exists now j',
          now ∈ nows /\
          Engine.claim db now k = Ok (Workers.store s) /\
          Engine.get_job (Workers.store s) k = Some j' /\
          ConversionJob.status j' = PROCESSING /\
          ConversionJob.started_at j' = Some now)) /\
  (exists s, rtc (Workers.step k) s0 s /\ Workers.finished s).
Proof.
  intros Hkeys Hj Hid Hst Hne s0.
  assert (claimable db k = true) as Hc.
  { unfold claimable. apply existsb_exists. exists j. split.
    - by apply list_elem_of_In.
    - apply job_matches_true. split; [done|].
      unfold Engine.is_pending. by apply bool_decide_eq_true. }
  split; [|apply race_finishes].
  intros s Hs.
  destruct (race_inv_reachable db k nows s Hc Hs) as (Hlen & _ & Hcase).
  pose proof (count_total (Workers.pool s)) as Htot.
  destruct Hcase as [(_ & _ & Hcl & Hsk) | (_ & Hcl & now & Hnow & Hclaim)].
  - split; [lia|]. unfold Workers.finished. intros Hfin.
    destruct nows; [done|]. simpl in *. lia.
  - split; [lia|]. unfold Workers.finished. intros Hfin.
    split_and!; [done | lia |].
    destruct (claim_job db now k _ j Hkeys Hj Hid Hclaim)
      as (j' & Hget & Hs' & Hstart & _).
    by exists now, j'.
Qed.

Lemma claim_exclusive_witness :
  let nows := [Scenario.t3; Scenario.t4; Scenario.t5] in
  let s0 := {| Workers.store := Sample.db;
               Workers.pool := Workers.Waiting <$> nows |} in
  let s := Workers.run_schedule 2 s0 [2; 0; 1]%nat in
  Workers.pool s = [Workers.Skipped; Workers.Skipped; Workers.Claimed] /\
  Engine.claim Sample.db Scenario.t5 2 = Ok (Workers.store s) /\
  (Workers.count Workers.is_claimed (Workers.pool s) <= 1)%nat /\
  (Workers.finished s ->
     Workers.count Workers.is_claimed (Workers.pool s) = 1%nat /\
     Workers.count Workers.is_skipped (Workers.pool s) = 2%nat /\
     exists now j',
       now ∈ nows /\
       Engine.claim Sample.db now 2 = Ok (Workers.store s) /\
       Engine.get_job (Workers.store s) 2 = Some j' /\
       ConversionJob.status j' = PROCESSING /\
       ConversionJob.started_at j' = Some now).
Proof.
  intros nows s0 s. split; [reflexivity|]. split; [reflexivity|].
  destruct (claim_exclusive Sample.db 2 Sample.job2 nows) as [H _].
  - compute_done.
  - apply list_elem_of_In; simpl; auto.
  - reflexivity.
  - reflexivity.
  - discriminate.
  - apply (H s). apply run_schedule_steps.
Defined.

(** Without the guard the claim is not exclusive: two workers that both read
    the job as PENDING both go on to process it. *)
Lemma read_then_write_not_exclusive :
  exists s,
    rtc (NaiveWorkers.step 2)
      {| NaiveWorkers.store := Sample.db;
         NaiveWorkers.pool := [NaiveWorkers.Idle Scenario.t3;
                               NaiveWorkers.Idle Scenario.t4] |} s /\
    NaiveWorkers.pool s = [NaiveWorkers.Won; NaiveWorkers.Won].
Proof.
  eexists. split.
  - eapply rtc_l; [by apply (NaiveWorkers.step_read 2 _ 0 Scenario.t3)|].
    eapply rtc_l; [by apply (NaiveWorkers.step_read 2 _ 1 Scenario.t4)|].
    eapply rtc_l;
      [by eapply (NaiveWorkers.step_write 2 _ 0 Scenario.t3)|].
    eapply rtc_l;
      [by eapply (NaiveWorkers.step_write 2 _ 1 Scenario.t4)|].
    apply rtc_refl.
  - reflexivity.
Qed.

(** * Further properties of the models *)

(** ** Validation of the schemas *)

Lemma failures_elem n (cs : list (string * bool)) :
  n ∈ failures cs <-> (n, false) ∈ cs.
Proof.
  unfold failures. rewrite list_elem_of_fmap. split.
  - intros ([n' b] & -> & H). apply list_elem_of_In, List.filter_In in H as [H Hb].
    simpl in *. destruct b; [done|]. by apply list_elem_of_In.
  - intros H. exists (n, false). split; [done|].
    apply list_elem_of_In, List.filter_In. split; [|done].
    by apply list_elem_of_In.
Qed.

Lemma failures_cases (cs : list (string * bool)) :
  failures cs = [] \/ exists n fs, failures cs = n :: fs.
Proof. destruct (failures cs) as [|n fs]; [by left | right; by eexists _, _]. Qed.

Lemma named_check_unique (cs : list (string * bool)) n b1 b2 :
  NoDup cs.*1 -> (n, b1) ∈ cs -> (n, b2) ∈ cs -> b1 = b2.
Proof.
  induction cs as [|[m c] cs IH]; intros Hnd H1 H2.
  - by apply elem_of_nil in H1.
  - rewrite fmap_cons in Hnd. apply NoDup_cons in Hnd as [Hm Hnd]. simpl in Hm.
    apply elem_of_cons in H1 as [E1 | H1];
      apply elem_of_cons in H2 as [E2 | H2]; simplify_eq.
    + done.
    + destruct Hm. apply list_elem_of_fmap. by exists (m, b2).
    + destruct Hm. apply list_elem_of_fmap. by exists (m, b1).
    + by apply IH.
Qed.

Lemma failures_field (cs : list (string * bool)) n b :
  NoDup cs.*1 -> (n, b) ∈ cs -> (n ∈ failures cs <-> b = false).
Proof.
  intros Hnd Hin. rewrite failures_elem. split.
  - intros H. symmetry. by eapply named_check_unique.
  - by intros ->.
Qed.

Lemma failures_names (cs : list (string * bool)) n :
  n ∈ failures cs -> n ∈ cs.*1.
Proof.
  rewrite failures_elem. intros H. apply list_elem_of_fmap. by exists (n, false).
Qed.

(** Membership of a literal in a literal list. *)
Ltac listed := repeat first [apply list_elem_of_here | apply list_elem_of_further].

Lemma str_ok_max n s :
  str_ok (set_max_length n Field) s = true <-> (str_len s <= n)%nat.
Proof. unfold str_ok. simpl. apply Nat.leb_le. Qed.

Lemma str_ok_len f n s :
  max_length f = Some n -> str_ok f s = true <-> (str_len s <= n)%nat.
Proof. unfold str_ok. intros ->. apply Nat.leb_le. Qed.

Lemma str_ok_max_false n s :
  str_ok (set_max_length n Field) s = false <-> (n < str_len s)%nat.
Proof. unfold str_ok. simpl. apply Nat.leb_gt. Qed.

Lemma opt_str_ok_max n o :
  opt_str_ok (set_max_length n Field) o = true <->
  forall s, o = Some s -> (str_len s <= n)%nat.
Proof.
  destruct o as [s|]; simpl.
  - rewrite str_ok_max. split; [by intros ? ? [= <-] | by intros H; apply H].
  - split; [by intros _ ? [=] | done].
Qed.

Lemma int_ok_ge0 v : int_ok (set_ge 0 Field) v = true <-> 0 <= v.
Proof. unfold int_ok. simpl. rewrite andb_true_r. apply Z.leb_le. Qed.

Lemma int_ok_ge0_false v : int_ok (set_ge 0 Field) v = false <-> v < 0.
Proof. unfold int_ok. simpl. rewrite andb_true_r. apply Z.leb_gt. Qed.

Lemma opt_ge_ok_iff n v :
  opt_int_ok (set_ge n Field) v = true <-> forall z, v = Some z -> n <= z.
Proof.
  destruct v as [z|]; simpl.
  - unfold int_ok. simpl. rewrite andb_true_r, Z.leb_le.
    split; [by intros ? ? [= <-] | by intros H; apply H].
  - split; [by intros _ ? [=] | done].
Qed.

(** X1. An upload request is constructed exactly when its file name has at
    most 255 characters, its size is not negative and its MIME type has at
    most 100 characters; it then holds the arguments as given.  Otherwise
    the construction raises a validation error that names exactly the
    fields out of range. *)
Theorem ImageUploadRequest_validation user_id original_filename file_size mime_type :
  let ok := (str_len original_filename <= 255)%nat /\ 0 <= file_size /\
            (str_len mime_type <= 100)%nat in
  (ok ->
   ImageUploadRequest.init user_id original_filename file_size mime_type
     = Ok (ImageUploadRequest.mk user_id original_filename file_size mime_type)) /\
  (~ ok ->
   exists fs,
     ImageUploadRequest.init user_id original_filename file_size mime_type
       = Err (ValidationError fs) /\
     fs ≠ [] /\
     ("original_filename" ∈ fs <-> (255 < str_len original_filename)%nat) /\
     ("file_size" ∈ fs <-> file_size < 0) /\
     ("mime_type" ∈ fs <-> (100 < str_len mime_type)%nat) /\
     (forall f, f ∈ fs -> f ∈ ["original_filename"; "file_size"; "mime_type"])).
Proof.
  intros ok. unfold ImageUploadRequest.init.
  set (cs := ImageUploadRequest.checks original_filename file_size mime_type).
  assert (Hok : failures cs = [] <-> ok).
  { rewrite failures_nil. unfold cs, ImageUploadRequest.checks, ok.
    rewrite !Forall_cons, Forall_nil. simpl.
    rewrite !str_ok_max, int_ok_ge0. tauto. }
  split.
  - intros H. apply Hok in H. by rewrite H.
  - intros Hnot. destruct (failures_cases cs) as [H | (n & fs & H)].
    { by apply Hok in H. }
    exists (n :: fs). rewrite H. split; [done|]. split; [done|].
    rewrite <- H. unfold cs, ImageUploadRequest.checks.
    rewrite <- !str_ok_max_false, <- int_ok_ge0_false.
    split_and!.
    + apply failures_field; [compute_done | listed].
    + apply failures_field; [compute_done | listed].
    + apply failures_field; [compute_done | listed].
    + intros f Hf. by apply failures_names in Hf.
Qed.

(** Sixty two-byte characters are sixty characters: the name is within the
    limit of 100 although it has 120 bytes. *)
Example UserCreate_counts_characters :
  let name := String.concat "" (List.repeat "é" 60) in
  String.length name = 120%nat /\
  str_len name = 60%nat /\
  UserCreate.init "a@b.c" name = Ok (UserCreate.mk "a@b.c" name).
Proof. by split_and!. Qed.

Lemma ImageUploadRequest_init_iff user_id original_filename file_size mime_type :
  (exists r, ImageUploadRequest.init user_id original_filename file_size mime_type
             = Ok r) <->
  failures (ImageUploadRequest.checks original_filename file_size mime_type) = [].
Proof.
  unfold ImageUploadRequest.init.
  destruct (failures _) as [|n fs]; split; try done; [by eexists | by intros [? ?]].
Qed.

(** X2. An uploaded image meets the constraints of its table exactly when
    an upload request with its file name, size and MIME type is accepted and
    its stored name has at most 255 characters, its path at most 500, and
    its width and height, when known, are not negative. *)
Theorem UploadedImage_agrees_with_request (i : UploadedImage.t) :
  failures (UploadedImage.checks i) = [] <->
  (exists r, ImageUploadRequest.init (UploadedImage.user_id i)
               (UploadedImage.original_filename i) (UploadedImage.file_size i)
               (UploadedImage.mime_type i) = Ok r) /\
  (str_len (UploadedImage.stored_filename i) <= 255)%nat /\
  (str_len (UploadedImage.file_path i) <= 500)%nat /\
  (forall w, UploadedImage.width i = Some w -> 0 <= w) /\
  (forall h, UploadedImage.height i = Some h -> 0 <= h).
Proof.
  rewrite ImageUploadRequest_init_iff, !failures_nil.
  unfold UploadedImage.checks, ImageUploadRequest.checks.
  rewrite !Forall_cons, !Forall_nil. simpl.
  rewrite <- !(opt_ge_ok_iff 0), <- !str_ok_max. tauto.
Qed.

(** X3. A [UserCreate] is constructed exactly when the email has at most 255
    characters and the name at most 100, which is exactly when a user row
    with that email and name meets the constraints of its table; a rejected
    one raises a validation error naming exactly the fields that are too
    long. *)
Theorem UserCreate_validation (u : User.t) :
  let ok := (str_len (User.email u) <= 255)%nat /\
            (str_len (User.name u) <= 100)%nat in
  (failures (User.checks u) = [] <-> ok) /\
  (ok -> UserCreate.init (User.email u) (User.name u)
         = Ok (UserCreate.mk (User.email u) (User.name u))) /\
  (~ ok ->
   exists fs,
     UserCreate.init (User.email u) (User.name u) = Err (ValidationError fs) /\
     fs ≠ [] /\
     ("email" ∈ fs <-> (255 < str_len (User.email u))%nat) /\
     ("name" ∈ fs <-> (100 < str_len (User.name u))%nat) /\
     (forall f, f ∈ fs -> f ∈ ["email"; "name"])).
Proof.
  intros ok. unfold UserCreate.init.
  set (cs := UserCreate.checks (User.email u) (User.name u)).
  assert (Hok : failures cs = [] <-> ok).
  { rewrite failures_nil. unfold cs, UserCreate.checks, ok.
    rewrite !Forall_cons, Forall_nil. simpl. rewrite !str_ok_max. tauto. }
  split_and!.
  - rewrite failures_nil. unfold User.checks, ok.
    rewrite !Forall_cons, Forall_nil. simpl.
    rewrite (str_ok_len (info User.f_email) 255) by done.
    rewrite (str_ok_len (info User.f_name) 100) by done. tauto.
  - intros H. apply Hok in H. by rewrite H.
  - intros Hnot. destruct (failures_cases cs) as [H | (n & fs & H)].
    { by apply Hok in H. }
    exists (n :: fs). rewrite H. split; [done|]. split; [done|].
    rewrite <- H. unfold cs, UserCreate.checks.
    rewrite <- !str_ok_max_false.
    split_and!.
    + apply failures_field; [compute_done | listed].
    + apply failures_field; [compute_done | listed].
    + intros f Hf. by apply failures_names in Hf.
Qed.

(** X4. A [UserUpdate] is constructed exactly when the email and the name
    it sets (if any) have at most 255 and 100 characters, the limits of the
    user table; an update that sets nothing is always accepted, and
    [is_active] is never a reason to reject one. *)
Theorem UserUpdate_validation email name is_active :
  let ok := (forall e, email = Some e -> str_ok (info User.f_email) e = true) /\
            (forall n, name = Some n -> str_ok (info User.f_name) n = true) in
  (ok <-> (forall e, email = Some e -> (str_len e <= 255)%nat) /\
          (forall n, name = Some n -> (str_len n <= 100)%nat)) /\
  (ok -> UserUpdate.init email name is_active
         = Ok (UserUpdate.mk email name is_active)) /\
  (~ ok -> exists fs,
     UserUpdate.init email name is_active = Err (ValidationError fs) /\
     fs ≠ [] /\ (forall f, f ∈ fs -> f ∈ ["email"; "name"])) /\
  UserUpdate.init None None is_active = Ok (UserUpdate.mk None None is_active).
Proof.
  intros ok.
  assert (Hlen : ok <->
            (forall e, email = Some e -> (str_len e <= 255)%nat) /\
            (forall n, name = Some n -> (str_len n <= 100)%nat)).
  { unfold ok.
    setoid_rewrite (str_ok_len (info User.f_email) 255); [|done].
    setoid_rewrite (str_ok_len (info User.f_name) 100); done. }
  unfold UserUpdate.init.
  set (cs := UserUpdate.checks email name).
  assert (Hok : failures cs = [] <-> ok).
  { rewrite Hlen, failures_nil. unfold cs, UserUpdate.checks.
    rewrite !Forall_cons, Forall_nil. simpl. rewrite !opt_str_ok_max. tauto. }
  split_and!; [done | | | done].
  - intros H. apply Hok in H. by rewrite H.
  - intros Hnot. destruct (failures_cases cs) as [H | (n & fs & H)].
    { by apply Hok in H. }
    exists (n :: fs). rewrite H. split; [done|]. split; [done|].
    rewrite <- H. intros f Hf. by apply failures_names in Hf.
Qed.

Lemma opt_int_ok_false f v :
  opt_int_ok f v = false <-> exists z, v = Some z /\ int_ok f z = false.
Proof.
  destruct v as [z|]; simpl.
  - split; [by exists z | by intros (? & [= <-] & ?)].
  - split; [done | by intros (? & [=] & _)].
Qed.

Lemma quality_ok_false q :
  int_ok (set_le 100 (set_ge 1 Field)) q = false <-> q < 1 \/ 100 < q.
Proof.
  rewrite <- not_true_iff_false, int_ok_iff. simpl. split.
  - intros H. destruct (decide (q < 1)) as [?|Hge]; [by left|].
    destruct (decide (100 < q)) as [?|Hle]; [by right|].
    destruct H. split; intros ? [= <-]; lia.
  - intros H [Hge Hle]. specialize (Hge 1 eq_refl). specialize (Hle 100 eq_refl).
    lia.
Qed.

Lemma dimension_ok_false n :
  int_ok (set_ge 1 Field) n = false <-> n < 1.
Proof. unfold int_ok. simpl. rewrite andb_true_r. apply Z.leb_gt. Qed.

(** X5. When the construction of a conversion request fails, the validation
    error names exactly the offending fields: [target_format] when the
    string is none of the seven format values, [quality] when it is given
    and outside [1,100], [width] and [height] when given and below 1; it
    names no other field and at least one. *)
Theorem ConversionRequest_validation_error p e :
  ConversionRequest.init p = Err e ->
  exists fs,
    e = ValidationError fs /\
    fs ≠ [] /\
    ("target_format" ∈ fs <->
       ConversionRequest.p_target_format p
         ∉ ["jpeg"; "jpg"; "png"; "webp"; "bmp"; "tiff"; "gif"]) /\
    ("quality" ∈ fs <->
       exists q, ConversionRequest.p_quality p = Some q /\ (q < 1 \/ 100 < q)) /\
    ("width" ∈ fs <-> exists w, ConversionRequest.p_width p = Some w /\ w < 1) /\
    ("height" ∈ fs <-> exists h, ConversionRequest.p_height p = Some h /\ h < 1) /\
    (forall f, f ∈ fs -> f ∈ ["target_format"; "quality"; "width"; "height"]).
Proof.
  unfold ConversionRequest.init.
  set (cs := ConversionRequest.checks p).
  destruct (failures_cases cs) as [H | (n & fs & H)].
  - rewrite H.
    destruct (ImageFormat_of_value (ConversionRequest.p_target_format p)) eqn:Hf;
      [done|].
    apply failures_nil in H. unfold cs, ConversionRequest.checks in H.
    apply Forall_cons in H as [H _]. simpl in H.
    apply bool_decide_eq_true in H. rewrite Hf in H. by destruct H.
  - rewrite H. intros [= <-]. exists (n :: fs).
    split; [done|]. split; [done|]. rewrite <- H.
    unfold cs, ConversionRequest.checks. split_and!.
    + rewrite <- ImageFormat_accepted, <- bool_decide_eq_false.
      apply failures_field; [compute_done | listed].
    + setoid_rewrite <- quality_ok_false. rewrite <- opt_int_ok_false.
      apply failures_field; [compute_done | listed].
    + setoid_rewrite <- dimension_ok_false. rewrite <- opt_int_ok_false.
      apply failures_field; [compute_done | listed].
    + setoid_rewrite <- dimension_ok_false. rewrite <- opt_int_ok_false.
      apply failures_field; [compute_done | listed].
    + intros f Hf. by apply failures_names in Hf.
Qed.

Lemma ConversionRequest_validation_error_witness :
  let p := ConversionRequest.mk_payload 1 "JPEG" None (Some 0) (Some 0)
             (Some 101) None in
  exists fs,
    ConversionRequest.init p = Err (ValidationError fs) /\
    fs = ["target_format"; "quality"; "width"] /\
    ("height" ∈ fs <-> exists h, ConversionRequest.p_height p = Some h /\ h < 1).
Proof.
  intros p.
  destruct (ConversionRequest_validation_error p
              (ValidationError ["target_format"; "quality"; "width"]))
    as (fs & Hfs & _ & _ & _ & _ & Hh & _).
  - reflexivity.
  - injection Hfs as <-. eexists. split; [reflexivity|]. split; [reflexivity|].
    exact Hh.
Defined.

(** X6. A job meets the constraints of its table exactly when the request
    with the same fields, its format written as its string value, is
    accepted and yields those very fields back, and the error message, if
    any, has at most 1000 characters. *)
Theorem ConversionJob_agrees_with_request (j : ConversionJob.t) :
  failures (ConversionJob.checks j) = [] <->
  ConversionRequest.init
    (ConversionRequest.mk_payload (ConversionJob.source_image_id j)
       (ImageFormat_value (ConversionJob.target_format j))
       (ConversionJob.user_id j) (ConversionJob.quality j)
       (ConversionJob.width j) (ConversionJob.height j)
       (Some (ConversionJob.maintain_aspect_ratio j)))
  = Ok (ConversionRequest.mk (ConversionJob.source_image_id j)
          (ConversionJob.target_format j) (ConversionJob.user_id j)
          (ConversionJob.quality j) (ConversionJob.width j)
          (ConversionJob.height j) (ConversionJob.maintain_aspect_ratio j)) /\
  (forall m, ConversionJob.error_message j = Some m ->
     (str_len m <= 1000)%nat).
Proof.
  rewrite failures_nil. unfold ConversionJob.checks.
  rewrite !Forall_cons, Forall_nil. simpl.
  rewrite (opt_str_ok_max 1000).
  assert (Hfmt : ImageFormat_of_value
                   (ImageFormat_value (ConversionJob.target_format j))
                 = Some (ConversionJob.target_format j))
    by by apply ImageFormat_of_value_spec.
  split.
  - intros (Hq & Hw & Hh & Hm & _). split; [|done].
    unfold ConversionRequest.init.
    assert (failures (ConversionRequest.checks
              (ConversionRequest.mk_payload (ConversionJob.source_image_id j)
                 (ImageFormat_value (ConversionJob.target_format j))
                 (ConversionJob.user_id j) (ConversionJob.quality j)
                 (ConversionJob.width j) (ConversionJob.height j)
                 (Some (ConversionJob.maintain_aspect_ratio j)))) = []) as ->.
    { apply failures_nil. unfold ConversionRequest.checks. simpl.
      repeat first [apply Forall_nil_2 | apply Forall_cons_2]; simpl; try done.
      apply bool_decide_eq_true. rewrite Hfmt. by eexists. }
    simpl. by rewrite Hfmt.
  - intros [Hreq Hm].
    apply ConversionRequest_init_ok in Hreq as (_&_&_&_&_&_&Hc).
    apply failures_nil in Hc. unfold ConversionRequest.checks in Hc.
    repeat (apply Forall_cons in Hc as [? Hc]). simpl in *.
    by split_and!.
Qed.

(** X7. A converted image constructed from the fields of a
    [ConvertedImageCreate], without a download count, meets the constraints
    of its table exactly when the [ConvertedImageCreate] meets its own; the
    count is then 0, the image is not deleted and was never downloaded. *)
Theorem ConvertedImage_from_create (r : ConvertedImageCreate.t) utcnow id created :
  let c := ConvertedImage.init utcnow id
             (ConvertedImageCreate.conversion_job_id r)
             (ConvertedImageCreate.filename r)
             (ConvertedImageCreate.file_path r)
             (ConvertedImageCreate.file_size r)
             (ConvertedImageCreate.mime_type r)
             (ConvertedImageCreate.format r)
             (ConvertedImageCreate.width r)
             (ConvertedImageCreate.height r)
             (ConvertedImageCreate.quality_used r)
             created None None (ConvertedImageCreate.expires_at r) None in
  (failures (ConvertedImage.checks c) = [] <->
   failures (ConvertedImageCreate.checks r) = []) /\
  ConvertedImage.download_count c = 0 /\
  ConvertedImage.is_deleted c = false /\
  ConvertedImage.last_downloaded_at c = None.
Proof.
  intros c. split; [|done].
  rewrite !failures_nil. unfold ConvertedImage.checks, ConvertedImageCreate.checks.
  rewrite !Forall_cons, !Forall_nil. simpl.
  assert (int_ok (set_ge 0 Field) 0 = true) as -> by done. tauto.
Qed.

(** ** What the serialized dictionaries hold *)

Lemma isoformat_entry_single data field :
  isoformat_entry data field = isoformat_entries [field] data.
Proof. simpl. by destruct (isoformat_entry data field). Qed.

Lemma serialized_no_datetime (dts : list string) (base out : gmap string value) :
  (forall k v, k ∈ dts -> base !! k = Some v -> datetime_or_none v) ->
  (forall k d, base !! k = Some (VDatetime d) -> k ∈ dts) ->
  (forall k, out !! k =
     if decide (k ∈ dts) then iso_value <$> base !! k else base !! k) ->
  forall k d, out !! k ≠ Some (VDatetime d).
Proof.
  intros Hty Honly Hout k d. rewrite Hout.
  destruct (decide (k ∈ dts)) as [Hk|Hk].
  - destruct (base !! k) as [v|] eqn:Hv; [|done].
    destruct (Hty k v Hk Hv) as [-> | [d' ->]]; done.
  - intros Hv. by apply Honly in Hv.
Qed.

(** The entries that hold a datetime are those of the datetime fields. *)
Ltac datetime_only self :=
  intros k d Hb; apply BaseModel_dict_elem in Hb;
  unfold ImageMetadata.datetime_fields, ConversionJobResponse.datetime_fields,
    ConvertedImageResponse.datetime_fields;
  destruct self;
  unfold ImageMetadata.fields, ConversionJobResponse.fields,
    ConvertedImageResponse.fields in Hb;
  cbn in Hb;
  repeat match type of Hb with
         | context [opt_value _ ?o] => destruct o; cbn in Hb
         end;
  repeat (apply elem_of_cons in Hb as [Hb|Hb];
          [try discriminate; injection Hb as -> _; listed |]);
  by apply elem_of_nil in Hb.

Lemma ImageMetadata_datetime_only self kw k d :
  BaseModel_dict (ImageMetadata.fields self) kw !! k = Some (VDatetime d) ->
  k ∈ ImageMetadata.datetime_fields.
Proof. revert k d. datetime_only self. Qed.

Lemma ConversionJobResponse_datetime_only self kw k d :
  BaseModel_dict (ConversionJobResponse.fields self) kw !! k = Some (VDatetime d) ->
  k ∈ ConversionJobResponse.datetime_fields.
Proof. revert k d. datetime_only self. Qed.

Lemma ConvertedImageResponse_datetime_only self kw k d :
  BaseModel_dict (ConvertedImageResponse.fields self) kw !! k = Some (VDatetime d) ->
  k ∈ ConvertedImageResponse.datetime_fields.
Proof. revert k d. datetime_only self. Qed.

(** X8. Whatever the keyword arguments, the dictionary that [dict] returns
    for a response object holds no datetime object under any key: the
    fields the overrides list are all the datetime fields of their class. *)
Theorem dict_has_no_datetime :
  (forall (self : ImageMetadata.t) kw,
     exists out, ImageMetadata.dict self kw = Ok out /\
       forall k d, out !! k ≠ Some (VDatetime d)) /\
  (forall (self : ConversionJobResponse.t) kw,
     exists out, ConversionJobResponse.dict self kw = Ok out /\
       forall k d, out !! k ≠ Some (VDatetime d)) /\
  (forall (self : ConvertedImageResponse.t) kw,
     exists out, ConvertedImageResponse.dict self kw = Ok out /\
       forall k d, out !! k ≠ Some (VDatetime d)).
Proof.
  split_and!; intros self kw.
  - unfold ImageMetadata.dict. rewrite isoformat_entry_single.
    destruct (isoformat_entries_spec ImageMetadata.datetime_fields
                (BaseModel_dict (ImageMetadata.fields self) kw))
      as (out & Hout & Hk);
      [compute_done | intros f v; apply ImageMetadata_entries |].
    exists out. split; [done|].
    eapply serialized_no_datetime;
      [apply ImageMetadata_entries | apply ImageMetadata_datetime_only | done].
  - unfold ConversionJobResponse.dict.
    destruct (isoformat_entries_spec ConversionJobResponse.datetime_fields
                (BaseModel_dict (ConversionJobResponse.fields self) kw))
      as (out & Hout & Hk);
      [compute_done | intros f v; apply ConversionJobResponse_entries |].
    exists out. split; [done|].
    eapply serialized_no_datetime;
      [apply ConversionJobResponse_entries
      | apply ConversionJobResponse_datetime_only | done].
  - unfold ConvertedImageResponse.dict.
    destruct (isoformat_entries_spec ConvertedImageResponse.datetime_fields
                (BaseModel_dict (ConvertedImageResponse.fields self) kw))
      as (out & Hout & Hk);
      [compute_done | intros f v; apply ConvertedImageResponse_entries |].
    exists out. split; [done|].
    eapply serialized_no_datetime;
      [apply ConvertedImageResponse_entries
      | apply ConvertedImageResponse_datetime_only | done].
Qed.

(** ** Rows, keys and relationships *)

Lemma unique_by {A K} (f : A -> K) (l : list A) x y :
  NoDup (f <$> l) -> x ∈ l -> y ∈ l -> f x = f y -> x = y.
Proof.
  induction l as [|a l IH]; intros Hnd Hx Hy Hf.
  - by apply elem_of_nil in Hx.
  - rewrite fmap_cons in Hnd. apply NoDup_cons in Hnd as [Ha Hnd].
    apply elem_of_cons in Hx as [->|Hx]; apply elem_of_cons in Hy as [->|Hy].
    + done.
    + destruct Ha. rewrite Hf. apply list_elem_of_fmap. by exists y.
    + destruct Ha. rewrite <- Hf. apply list_elem_of_fmap. by exists x.
    + by apply IH.
Qed.

Lemma find_unique_by {A K} `{EqDecision K} (f : A -> K) (l : list A) x :
  NoDup (f <$> l) -> x ∈ l ->
  List.find (fun y => bool_decide (f y = f x)) l = Some x.
Proof.
  intros Hnd Hx. destruct (List.find _ l) as [y|] eqn:Hfind.
  - apply List.find_some in Hfind as [Hy Hk].
    apply bool_decide_eq_true in Hk. apply list_elem_of_In in Hy.
    f_equal. by eapply unique_by.
  - apply list_elem_of_In in Hx.
    pose proof (List.find_none _ _ Hfind _ Hx) as Hf. simpl in Hf.
    by apply bool_decide_eq_false in Hf.
Qed.

Lemma omap_id_some_gen {A K} (f : A -> K) (l : list A) :
  omap id (Some ∘ f <$> l) = f <$> l.
Proof. induction l as [|a l IH]; [done|]. simpl. f_equal. exact IH. Qed.

Lemma elem_of_filter_bool {A} (p : A -> bool) (l : list A) x :
  x ∈ List.filter p l <-> x ∈ l /\ p x = true.
Proof. rewrite !list_elem_of_In. apply List.filter_In. Qed.

Lemma db_wf_not_null db :
  db_wf db ->
  Forall is_Some (User.id <$> users db) /\
  Forall is_Some (UploadedImage.id <$> uploaded_images db) /\
  Forall is_Some (ConversionJob.id <$> conversion_jobs db) /\
  Forall is_Some (ConvertedImage.id <$> converted_images db).
Proof.
  intros ((H1&_)&_&(H2&_)&_&(H3&_)&_&_&(H4&_)&_).
  split_and!; [by apply H1 | by apply H2 | by apply H3 | by apply H4].
Qed.

Lemma db_wf_converted_ids db :
  db_wf db -> NoDup (omap id (ConvertedImage.id <$> converted_images db)).
Proof. intros (_&_&_&_&_&_&_&(_&H&_)&_). by apply H. Qed.

Lemma db_wf_emails db : db_wf db -> NoDup (User.email <$> users db).
Proof.
  intros (_&H&_). rewrite <- omap_id_some_gen. by apply H.
Qed.

Lemma db_wf_image_user db i k :
  db_wf db -> i ∈ uploaded_images db -> UploadedImage.user_id i = Some k ->
  exists u, u ∈ users db /\ User.id u = Some k.
Proof.
  intros (_&_&_&(_&_&H)&_) Hi Hk.
  unfold foreign_key_ok in H. simpl in H. rewrite Forall_forall in H.
  apply (key_referenced User.id). apply H.
  apply list_elem_of_omap. exists (Some k). split; [|done].
  apply list_elem_of_fmap. by exists i.
Qed.

Lemma row_has_id {A} (key : A -> option Z) (l : list A) x :
  Forall is_Some (key <$> l) -> x ∈ l -> is_Some (key x).
Proof.
  rewrite Forall_fmap, Forall_forall. intros H Hx. by apply H.
Qed.

Lemma same_id_same_row {A} (key : A -> option Z) (l : list A) x y :
  Forall is_Some (key <$> l) -> NoDup (omap id (key <$> l)) ->
  x ∈ l -> y ∈ l -> key x = key y -> x = y.
Proof.
  intros Hnn Hnd Hx Hy Heq.
  destruct (row_has_id key l x Hnn Hx) as [k Hk].
  eapply (key_unique key); [done..|]. by rewrite <- Heq.
Qed.

(** X9. In a store that meets the declared constraints, the primary key
    [id] of each of the four tables is never [NULL] and identifies its row:
    two rows of a table with the same [id] are the same row. *)
Theorem primary_keys_identify_rows (db : Db) :
  db_wf db ->
  (forall u, u ∈ users db -> is_Some (User.id u)) /\
  (forall u1 u2, u1 ∈ users db -> u2 ∈ users db ->
     User.id u1 = User.id u2 -> u1 = u2) /\
  (forall i, i ∈ uploaded_images db -> is_Some (UploadedImage.id i)) /\
  (forall i1 i2, i1 ∈ uploaded_images db -> i2 ∈ uploaded_images db ->
     UploadedImage.id i1 = UploadedImage.id i2 -> i1 = i2) /\
  (forall j, j ∈ conversion_jobs db -> is_Some (ConversionJob.id j)) /\
  (forall j1 j2, j1 ∈ conversion_jobs db -> j2 ∈ conversion_jobs db ->
     ConversionJob.id j1 = ConversionJob.id j2 -> j1 = j2) /\
  (forall c, c ∈ converted_images db -> is_Some (ConvertedImage.id c)) /\
  (forall c1 c2, c1 ∈ converted_images db -> c2 ∈ converted_images db ->
     ConvertedImage.id c1 = ConvertedImage.id c2 -> c1 = c2).
Proof.
  intros Hwf. destruct (db_wf_not_null db Hwf) as (Hu & Hi & Hj & Hc).
  split_and!.
  - intros u. by apply (row_has_id User.id).
  - intros u1 u2. apply (same_id_same_row User.id); [done|].
    by apply db_wf_user_ids.
  - intros i. by apply (row_has_id UploadedImage.id).
  - intros i1 i2. apply (same_id_same_row UploadedImage.id); [done|].
    by apply db_wf_image_ids.
  - intros j. by apply (row_has_id ConversionJob.id).
  - intros j1 j2. apply (same_id_same_row ConversionJob.id); [done|].
    by apply db_wf_job_ids.
  - intros c. by apply (row_has_id ConvertedImage.id).
  - intros c1 c2. apply (same_id_same_row ConvertedImage.id); [done|].
    by apply db_wf_converted_ids.
Qed.

Lemma primary_keys_identify_rows_witness :
  db_wf Sample.db /\
  (forall j1 j2, j1 ∈ conversion_jobs Sample.db -> j2 ∈ conversion_jobs Sample.db ->
     ConversionJob.id j1 = ConversionJob.id j2 -> j1 = j2).
Proof.
  split; [compute_done|].
  apply (primary_keys_identify_rows Sample.db). compute_done.
Defined.

(** X10. In a store that meets the declared constraints the unique column
    [email] identifies a user: two users of the store have the same email
    exactly when they are the same row, so different users have different
    emails. *)
Theorem email_identifies_user (db : Db) u1 u2 :
  db_wf db -> u1 ∈ users db -> u2 ∈ users db ->
  (User.email u1 = User.email u2 <-> u1 = u2) /\
  (u1 ≠ u2 -> User.email u1 ≠ User.email u2).
Proof.
  intros Hwf H1 H2.
  assert (User.email u1 = User.email u2 -> u1 = u2) as Himp.
  { apply (unique_by User.email (users db)); [by apply db_wf_emails | done..]. }
  split; [split; [done | by intros ->] | intros Hne Heq; by apply Hne, Himp].
Qed.

Lemma email_identifies_user_witness :
  db_wf Sample.two_users /\
  Sample.user1 ∈ users Sample.two_users /\
  Sample.user2 ∈ users Sample.two_users /\
  Sample.user1 ≠ Sample.user2 /\
  (User.email Sample.user1 = User.email Sample.user2 <->
   Sample.user1 = Sample.user2) /\
  (Sample.user1 ≠ Sample.user2 ->
   User.email Sample.user1 ≠ User.email Sample.user2).
Proof.
  split; [compute_done|]. split; [listed|]. split; [listed|].
  split; [discriminate|].
  apply (email_identifies_user Sample.two_users); [compute_done | listed | listed].
Defined.

Example duplicate_email_rejected :
  ~ db_wf {| users := [Sample.user1;
                       User.mk (Some 2) "ada@example.org" "Ada L." true
                         Sample.t1 Sample.t1];
             uploaded_images := []; conversion_jobs := [];
             converted_images := [] |}.
Proof. compute_done. Qed.

(** X11. In a store that meets the declared constraints, an uploaded image
    that names a user belongs to exactly one user, the one [image.user]
    resolves to; an image without [user_id] has no user. *)
Theorem UploadedImage_user_reference (db : Db) (i : UploadedImage.t) :
  db_wf db -> i ∈ uploaded_images db ->
  match UploadedImage.user_id i with
  | None => image_user db i = None
  | Some k =>
      exists u, u ∈ users db /\ User.id u = Some k /\
        image_user db i = Some u /\
        forall u', u' ∈ users db -> User.id u' = Some k -> u' = u
  end.
Proof.
  intros Hwf Hi. unfold image_user.
  destruct (UploadedImage.user_id i) as [k|] eqn:Hk; [|done].
  destruct (db_wf_image_user db i k Hwf Hi Hk) as (u & Hu & Hid).
  pose proof (db_wf_user_ids db Hwf) as Hnd.
  exists u. split_and!; try done.
  - by apply (find_key User.id).
  - intros u' Hu' Hid'. by eapply (key_unique User.id).
Qed.

Lemma UploadedImage_user_reference_witness :
  db_wf Sample.db /\ Sample.image1 ∈ uploaded_images Sample.db /\
  exists u, u ∈ users Sample.db /\ User.id u = Some 1 /\
    image_user Sample.db Sample.image1 = Some u /\
    forall u', u' ∈ users Sample.db -> User.id u' = Some 1 -> u' = u.
Proof.
  split; [compute_done|]. split; [listed|].
  apply (UploadedImage_user_reference Sample.db Sample.image1);
    [compute_done | listed].
Defined.

(** X12. In a store that meets the declared constraints the two sides of
    the one-to-one relationship agree: for a job and a converted image of
    the store, [job.converted_image] is the image exactly when
    [image.conversion_job] is the job. *)
Theorem converted_image_round_trip (db : Db) j c :
  db_wf db -> j ∈ conversion_jobs db -> c ∈ converted_images db ->
  converted_image db j = Some c <-> conversion_job db c = Some j.
Proof.
  intros Hwf Hj Hc.
  pose proof (db_wf_job_ids db Hwf) as Hjobs.
  pose proof (db_wf_converted_job_ids db Hwf) as Hcs.
  rewrite omap_id_some in Hcs.
  split.
  - unfold converted_image. destruct (ConversionJob.id j) as [k|] eqn:Hid; [|done].
    intros H. apply List.find_some in H as [_ Hk].
    apply bool_decide_eq_true in Hk. unfold conversion_job.
    apply (find_key ConversionJob.id); [done..|]. by rewrite Hk.
  - unfold conversion_job. intros H.
    apply List.find_some in H as [_ Hid]. apply bool_decide_eq_true in Hid.
    unfold converted_image. rewrite Hid.
    by apply (find_unique_by ConvertedImage.conversion_job_id).
Qed.

Lemma converted_image_round_trip_witness :
  db_wf Sample.db /\
  converted_image Sample.db Sample.job1 = Some Sample.converted1 /\
  (converted_image Sample.db Sample.job1 = Some Sample.converted1 <->
   conversion_job Sample.db Sample.converted1 = Some Sample.job1).
Proof.
  split; [compute_done|]. split; [reflexivity|].
  apply (converted_image_round_trip Sample.db); [compute_done | listed | listed].
Defined.

(** X13. In a store that meets the declared constraints the two sides of
    the relationship between uploaded images and jobs agree: a job is among
    [image.conversion_jobs] exactly when [job.source_image] is the image;
    so every job is among the jobs of exactly one uploaded image. *)
Theorem image_jobs_back_populates (db : Db) :
  db_wf db ->
  (forall i j, i ∈ uploaded_images db -> j ∈ conversion_jobs db ->
     j ∈ image_conversion_jobs db i <-> source_image db j = Some i) /\
  (forall j, j ∈ conversion_jobs db ->
     exists i, i ∈ uploaded_images db /\ j ∈ image_conversion_jobs db i /\
       forall i', i' ∈ uploaded_images db ->
         j ∈ image_conversion_jobs db i' -> i' = i).
Proof.
  intros Hwf.
  pose proof (db_wf_image_ids db Hwf) as Hnd.
  destruct (db_wf_not_null db Hwf) as (_ & Hnn & _).
  assert (Hiff : forall i j, i ∈ uploaded_images db -> j ∈ conversion_jobs db ->
            j ∈ image_conversion_jobs db i <-> source_image db j = Some i).
  { intros i j Hi Hj. unfold image_conversion_jobs, source_image.
    destruct (row_has_id UploadedImage.id _ i Hnn Hi) as [k Hk]. rewrite Hk.
    rewrite elem_of_filter_bool, bool_decide_eq_true. split.
    - intros [_ Hsrc]. apply (find_key UploadedImage.id); [done..|].
      by rewrite Hsrc.
    - intros H. apply List.find_some in H as [_ Hid].
      apply bool_decide_eq_true in Hid. split; [done|]. congruence. }
  split; [exact Hiff|].
  intros j Hj. destruct (db_wf_source_image db j Hwf Hj) as (i & Hi & Hid).
  assert (source_image db j = Some i) as Hsrc
    by (unfold source_image; by apply (find_key UploadedImage.id)).
  exists i. split_and!; [done | by apply Hiff |].
  intros i' Hi' Hin. apply Hiff in Hin; [|done..]. congruence.
Qed.

Lemma image_jobs_back_populates_witness :
  db_wf Sample.db /\
  image_conversion_jobs Sample.db Sample.image1 = [Sample.job1; Sample.job2] /\
  image_conversion_jobs Sample.db Sample.image2 = [] /\
  (forall i j, i ∈ uploaded_images Sample.db -> j ∈ conversion_jobs Sample.db ->
     j ∈ image_conversion_jobs Sample.db i <-> source_image Sample.db j = Some i).
Proof.
  split; [compute_done|]. split; [reflexivity|]. split; [reflexivity|].
  apply (image_jobs_back_populates Sample.db). compute_done.
Defined.

(** X14. In a store that meets the declared constraints the two sides of
    the relationships of a user agree: an uploaded image is among
    [user.uploaded_images] exactly when [image.user] is the user, and a job
    is among [user.conversion_jobs] exactly when [job.user] is the user. *)
Theorem user_back_populates (db : Db) (u : User.t) :
  db_wf db -> u ∈ users db ->
  (forall i, i ∈ uploaded_images db ->
     i ∈ user_uploaded_images db u <-> image_user db i = Some u) /\
  (forall j, j ∈ conversion_jobs db ->
     j ∈ user_conversion_jobs db u <-> job_user db j = Some u).
Proof.
  intros Hwf Hu.
  pose proof (db_wf_user_ids db Hwf) as Hnd.
  destruct (db_wf_not_null db Hwf) as (Hnn & _).
  destruct (row_has_id User.id _ u Hnn Hu) as [k Hk].
  split.
  - intros i Hi. unfold user_uploaded_images, image_user. rewrite Hk.
    rewrite elem_of_filter_bool, bool_decide_eq_true. split.
    + intros [_ ->]. by apply (find_key User.id).
    + destruct (UploadedImage.user_id i) as [k'|]; [|done].
      intros H. apply List.find_some in H as [_ Hid].
      apply bool_decide_eq_true in Hid. split; [done|]. congruence.
  - intros j Hj. unfold user_conversion_jobs, job_user. rewrite Hk.
    rewrite elem_of_filter_bool, bool_decide_eq_true. split.
    + intros [_ ->]. by apply (find_key User.id).
    + destruct (ConversionJob.user_id j) as [k'|]; [|done].
      intros H. apply List.find_some in H as [_ Hid].
      apply bool_decide_eq_true in Hid. split; [done|]. congruence.
Qed.

Lemma user_back_populates_witness :
  db_wf Sample.db /\
  user_uploaded_images Sample.db Sample.user1 = [Sample.image1] /\
  user_conversion_jobs Sample.db Sample.user1 = [Sample.job1] /\
  job_user Sample.db Sample.job2 = None /\
  (forall j, j ∈ conversion_jobs Sample.db ->
     j ∈ user_conversion_jobs Sample.db Sample.user1 <->
     job_user Sample.db j = Some Sample.user1).
Proof.
  split; [compute_done|]. split; [reflexivity|]. split; [reflexivity|].
  split; [reflexivity|].
  apply (user_back_populates Sample.db Sample.user1); [compute_done | listed].
Defined.

(** ** The declared schema *)

(** Resolves a foreign key among the declared tables. *)
Ltac resolve_foreign_key :=
  first
    [ by (exists User.tablename, User.columns, User.f_id;
          split_and!; [listed | reflexivity | listed | reflexivity | reflexivity])
    | by (exists UploadedImage.tablename, UploadedImage.columns, UploadedImage.f_id;
          split_and!; [listed | reflexivity | listed | reflexivity | reflexivity])
    | by (exists ConversionJob.tablename, ConversionJob.columns, ConversionJob.f_id;
          split_and!; [listed | reflexivity | listed | reflexivity | reflexivity])
    | by (exists ConvertedImage.tablename, ConvertedImage.columns, ConvertedImage.f_id;
          split_and!; [listed | reflexivity | listed | reflexivity | reflexivity]) ].

Ltac table_columns :=
  split_and!;
  [ compute_done
  | eexists; split_and!; reflexivity
  | let f := fresh "f" in let target := fresh "target" in
    let Hf := fresh "Hf" in let Hfk := fresh "Hfk" in
    intros f target Hf Hfk;
    repeat (apply elem_of_cons in Hf as [->|Hf];
            [first [discriminate Hfk
                   | injection Hfk as <-; resolve_foreign_key] |]);
    by apply elem_of_nil in Hf ].

(** X15. The four tables have distinct names; the columns of a table have
    distinct names; each table has exactly one primary key column, [id],
    which is not nullable; and every foreign key that a column declares is
    ["t.id"] for a declared table [t], whose [id] is its primary key. *)
Theorem schema_keys_declared :
  NoDup tables.*1 /\
  forall name cols, (name, cols) ∈ tables ->
    NoDup (field_name <$> cols) /\
    (exists pk, List.filter (fun f => primary_key (info f)) cols = [pk] /\
       field_name pk = "id" /\ col_nullable (column_of pk) = false) /\
    (forall f target, f ∈ cols -> foreign_key (info f) = Some target ->
       exists name' cols' pk',
         (name', cols') ∈ tables /\
         target = name' ++ ".id" /\
         pk' ∈ cols' /\ field_name pk' = "id" /\
         primary_key (info pk') = true).
Proof.
  split; [compute_done|].
  intros name cols H. unfold tables in H.
  repeat (apply elem_of_cons in H as [H|H]; [injection H as -> -> |]).
  - unfold User.columns. table_columns.
  - unfold UploadedImage.columns. table_columns.
  - unfold ConversionJob.columns. table_columns.
  - unfold ConvertedImage.columns. table_columns.
  - by apply elem_of_nil in H.
Qed.
